(** * TrialScribe: the draft / check / revise loop of
      [clinicalTrialTemplateCreation.py]

    A shallow embedding of the compliance heuristics, the context formatter,
    the LangGraph nodes and router, and the demo driver, with the properties
    that the specification states about them.

    Conventions.
    - A Python [str] is a [string]; its characters are read as the code
      points U+0000 to U+00FF, on which [lower] and [isspace] below agree
      with Python's [str.lower] and the whitespace of [str.split()].
    - A Python [int] is a [Z].
    - Calls to the collaborators (retriever, text generator) are oracles that
      see the history of calls made so far; every call is recorded in a
      trace, also when it raises. *)

From Stdlib Require Import String Ascii List ZArith NArith Lia Bool Arith.
Import ListNotations.
Local Open Scope string_scope.

(* ------------------------------------------------------------------ *)
(** ** Python string operations used by the program *)
(* ------------------------------------------------------------------ *)

Module PyStr.

(** The newline character, as a one-character string. *)
Definition nl : string := String (ascii_of_nat 10) EmptyString.

(** Whitespace of [str.split()] and [str.isspace()] below U+0100:
    TAB, LF, VT, FF, CR, the separators U+001C..U+001F, SPACE, NEL, NBSP. *)
Definition isspace (c : ascii) : bool :=
  let n := N_of_ascii c in
  ((9 <=? n) && (n <=? 13) || (28 <=? n) && (n <=? 32)
   || (n =? 133) || (n =? 160))%N.

(** [str.lower()] on one code point below U+0100: A..Z and the accented
    capitals U+00C0..U+00DE (without the multiplication sign U+00D7) move
    up by 32; every other code point is its own lower case. *)
Definition lower_char (c : ascii) : ascii :=
  let n := N_of_ascii c in
  if ((65 <=? n) && (n <=? 90)
      || (192 <=? n) && (n <=? 222) && negb (n =? 215))%N
  then ascii_of_N (n + 32) else c.

(** [s.lower()] *)
Fixpoint lower (s : string) : string :=
  match s with
  | EmptyString => EmptyString
  | String c s' => String (lower_char c) (lower s')
  end.

(** [s.startswith(p)] *)
Fixpoint startswith (s p : string) : bool :=
  match p, s with
  | EmptyString, _ => true
  | String _ _, EmptyString => false
  | String a p', String b s' => Ascii.eqb a b && startswith s' p'
  end.

(** [needle in s] *)
Fixpoint contains (needle s : string) : bool :=
  startswith s needle ||
  match s with
  | EmptyString => false
  | String _ s' => contains needle s'
  end.

(** [s.split()]: the maximal runs of non-whitespace characters, in order.
    [cur] is the run being read. *)
Fixpoint split_from (cur s : string) : list string :=
  match s with
  | EmptyString =>
      match cur with EmptyString => [] | _ => [cur] end
  | String c s' =>
      if isspace c
      then match cur with
           | EmptyString => split_from EmptyString s'
           | _ => cur :: split_from EmptyString s'
           end
      else split_from (cur ++ String c EmptyString) s'
  end.

Definition split (s : string) : list string := split_from EmptyString s.

(** [s[:n]] for [n >= 0] *)
Fixpoint slice_to (n : nat) (s : string) : string :=
  match n, s with
  | O, _ => EmptyString
  | S _, EmptyString => EmptyString
  | S n', String c s' => String c (slice_to n' s')
  end.

(** [s.replace(old, new)] where [old] and [new] are single characters. *)
Fixpoint replace_char (old new : ascii) (s : string) : string :=
  match s with
  | EmptyString => EmptyString
  | String c s' =>
      String (if Ascii.eqb c old then new else c) (replace_char old new s')
  end.

(** [sep.join(parts)] *)
Fixpoint join (sep : string) (parts : list string) : string :=
  match parts with
  | [] => EmptyString
  | [p] => p
  | p :: rest => p ++ sep ++ join sep rest
  end.

(** [str(n)] for a non-negative integer: its decimal digits. *)
Definition digit (n : nat) : ascii := ascii_of_nat (48 + n).

Fixpoint str_of_nat_fuel (fuel n : nat) (acc : string) : string :=
  match fuel with
  | O => acc
  | S fuel' =>
      let acc' := String (digit (n mod 10)) acc in
      match n / 10 with
      | O => acc'
      | q => str_of_nat_fuel fuel' q acc'
      end
  end.

Definition str_of_nat (n : nat) : string := str_of_nat_fuel (S n) n EmptyString.

(** [os.path.basename(p)] (POSIX): what follows the last slash. *)
Fixpoint basename_from (cur p : string) : string :=
  match p with
  | EmptyString => cur
  | String c p' =>
      if Ascii.eqb c "/"%char
      then basename_from EmptyString p'
      else basename_from (cur ++ String c EmptyString) p'
  end.

Definition basename (p : string) : string := basename_from EmptyString p.

End PyStr.

(* ------------------------------------------------------------------ *)
(** ** The compliance tool *)
(* ------------------------------------------------------------------ *)

(** [ComplianceIssue] and, with the same two fields, the dictionary
    [{"rule": ..., "message": ...}] it is returned as. *)
Record ComplianceIssue : Type := mkIssue { rule : string; message : string }.

(** The dictionary [{"ok": ..., "issues": [...]}]. *)
Record CheckResult : Type := mkCheck { ok : bool; issues : list ComplianceIssue }.

Definition issue_no_placeholders : ComplianceIssue :=
  mkIssue "no_placeholders" "Remove TBD/placeholder language.".
Definition issue_risk_mitigation : ComplianceIssue :=
  mkIssue "risk_mitigation" "Mention risk mitigation when risks are discussed.".
Definition issue_consent_withdrawal : ComplianceIssue :=
  mkIssue "consent_withdrawal" "State withdrawal rights in consent context.".
Definition issue_min_length : ComplianceIssue :=
  mkIssue "min_length" "Provide at least ~150 words for sufficient detail.".

(** The conditions of the four [if] statements. *)
Definition cond_no_placeholders (text : string) : bool :=
  PyStr.contains "TBD" text
  || PyStr.contains "to be determined" (PyStr.lower text).

Definition cond_risk_mitigation (text : string) : bool :=
  PyStr.contains "risk" (PyStr.lower text)
  && negb (PyStr.contains "mitigation" (PyStr.lower text)).

Definition cond_consent_withdrawal (text : string) : bool :=
  PyStr.contains "consent" (PyStr.lower text)
  && negb (PyStr.contains "withdraw" (PyStr.lower text)).

Definition cond_min_length (text : string) : bool :=
  (List.length (PyStr.split text) <? 150)%nat.

(** [issues.append(x)] under a condition. *)
Definition append_if (b : bool) (x : ComplianceIssue)
  (l : list ComplianceIssue) : list ComplianceIssue :=
  if b then l ++ [x] else l.

(** [compliance_check(text)] *)
Definition compliance_check (text : string) : CheckResult :=
  let issues0 := [] in
  let issues1 := append_if (cond_no_placeholders text) issue_no_placeholders issues0 in
  let issues2 := append_if (cond_risk_mitigation text) issue_risk_mitigation issues1 in
  let issues3 := append_if (cond_consent_withdrawal text) issue_consent_withdrawal issues2 in
  let issues4 := append_if (cond_min_length text) issue_min_length issues3 in
  mkCheck (Nat.eqb (List.length issues4) 0) issues4.

(* ------------------------------------------------------------------ *)
(** ** Retrieved documents and the context formatter *)
(* ------------------------------------------------------------------ *)

(** A Python dictionary with string keys and string values, in insertion
    order; [dict_get d k default] is [d.get(k, default)]. *)
Definition dict := list (string * string).

Fixpoint dict_get (d : dict) (k default : string) : string :=
  match d with
  | [] => default
  | (k', v) :: d' => if String.eqb k' k then v else dict_get d' k default
  end.

(** LangChain's [Document]. *)
Record Document : Type := mkDocument { page_content : string; metadata : dict }.

Definition preview_length : nat := 350.

(** One iteration of the loop of [fmt_context]: the formatted line for the
    [i]-th document. *)
Definition fmt_line (i : nat) (d : Document) : string :=
  let src := dict_get (metadata d) "source" "doc" in
  "- [" ++ PyStr.str_of_nat i ++ "] (" ++ PyStr.basename src ++ ") "
  ++ PyStr.replace_char (ascii_of_nat 10) " "%char
       (PyStr.slice_to preview_length (page_content d))
  ++ "...".

(** [enumerate(docs, i)] with the line built for every pair. *)
Fixpoint fmt_lines (i : nat) (docs : list Document) : list string :=
  match docs with
  | [] => []
  | d :: rest => fmt_line i d :: fmt_lines (S i) rest
  end.

(** [fmt_context(docs)] *)
Definition fmt_context (docs : list Document) : string :=
  PyStr.join PyStr.nl (fmt_lines 1 docs).

(* ------------------------------------------------------------------ *)
(** ** Exceptions, collaborators and the call trace *)
(* ------------------------------------------------------------------ *)

(** The exceptions that can end a run.  [CollaboratorError] stands for
    whatever a collaborator (vector store, retriever, text generator, or
    the operating system when a file is opened) raises from inside its own
    call. *)
Inductive exn : Type :=
| RuntimeError (msg : string)
| NameError (name : string)
| KeyError (key : string)
| GraphRecursionError
| CollaboratorError (msg : string).

Inductive result (A : Type) : Type :=
| Ok (a : A)
| Raise (e : exn).
Arguments Ok {A} a.
Arguments Raise {A} e.

(** What a collaborator answers to one call. *)
Inductive reply (A : Type) : Type :=
| Returns (a : A)
| Fails (msg : string).
Arguments Returns {A} a.
Arguments Fails {A} msg.

(** The nodes added by [build_graph], and where an edge can lead. *)
Inductive node : Type := NRetrieve | NDraft | NCheck | NRevise.

Inductive target : Type :=
| Goto (n : node)
| END.

(** The calls a run makes, in the order they are made. *)
Inductive event : Type :=
| Retrieval (query : string)
| Generation (caller : node) (system human : string)
| Compliance (text : string).

Definition history := list event.

(** A retriever, as returned by [vs.as_retriever(...)]. *)
Definition Retriever := history -> string -> reply (list Document).

(** Computations that make calls and may raise: the history is threaded
    through and kept when an exception is raised. *)
Definition M (A : Type) : Type := history -> result A * history.

Definition ret {A} (a : A) : M A := fun h => (Ok a, h).
Definition raise {A} (e : exn) : M A := fun h => (Raise e, h).
Definition bind {A B} (m : M A) (k : A -> M B) : M B :=
  fun h =>
    match m h with
    | (Ok a, h') => k a h'
    | (Raise e, h') => (Raise e, h')
    end.

Notation "x <- m ;; k" := (bind m (fun x => k))
  (at level 61, m at next level, right associativity).
Notation "m >> k" := (bind m (fun _ => k))
  (at level 61, right associativity).

(** [try: m / except Exception: pass] *)
Definition try_pass (m : M unit) : M unit :=
  fun h =>
    match m h with
    | (Ok u, h') => (Ok u, h')
    | (Raise _, h') => (Ok tt, h')
    end.

(** [d[key]] on an optional entry. *)
Definition getitem {A} (key : string) (entry : option A) : M A :=
  match entry with
  | Some v => ret v
  | None => raise (KeyError key)
  end.

(** [event_by n e]: the call [e] is the one that node [n] makes. *)
Definition event_by (n : node) (e : event) : bool :=
  match e, n with
  | Retrieval _, NRetrieve => true
  | Generation NDraft _ _, NDraft => true
  | Generation NRevise _ _, NRevise => true
  | Compliance _, NCheck => true
  | _, _ => false
  end.

Definition calls_by (n : node) (h : history) : nat :=
  List.length (filter (event_by n) h).

Definition retrieval_calls (h : history) : nat := calls_by NRetrieve h.
Definition drafting_calls (h : history) : nat := calls_by NDraft h.
Definition compliance_checks (h : history) : nat := calls_by NCheck h.
Definition revision_calls (h : history) : nat := calls_by NRevise h.

(* ------------------------------------------------------------------ *)
(** ** Prompts *)
(* ------------------------------------------------------------------ *)

Definition DRAFT_SYSTEM : string :=
  "You are a clinical-trial documentation assistant. Write clear, precise, and compliant text. "
  ++ "Follow retrieved guidance carefully and avoid ambiguous statements.".

(** The human turn of [DRAFT_PROMPT] with [{task}] and [{context}] filled. *)
Definition DRAFT_PROMPT (task context : string) : string :=
  "TASK: " ++ task ++ PyStr.nl ++ PyStr.nl
  ++ "CONTEXT (guidance snippets):" ++ PyStr.nl ++ context ++ PyStr.nl ++ PyStr.nl
  ++ "Write the requested section. Use neutral tone and professional clinical-trial style.".

Definition REVISION_SYSTEM : string :=
  "You are a meticulous compliance editor for clinical-trial documents.".

(** The human turn of [REVISION_PROMPT] with [{draft}] and [{issues}] filled. *)
Definition REVISION_PROMPT (draft issues_str : string) : string :=
  "Revise the DRAFT to resolve the following compliance issues. Preserve meaning and structure."
  ++ PyStr.nl ++ PyStr.nl
  ++ "DRAFT:" ++ PyStr.nl ++ draft ++ PyStr.nl ++ PyStr.nl
  ++ "COMPLIANCE ISSUES:" ++ PyStr.nl ++ issues_str ++ PyStr.nl ++ PyStr.nl
  ++ "Return the full revised text, improved but not overly verbose.".

(* ------------------------------------------------------------------ *)
(** ** The graph state *)
(* ------------------------------------------------------------------ *)

(** [DocState], a [TypedDict] with [total=False]: every key may be absent.
    The same type serves for the partial dictionaries the nodes return. *)
Module DocState.
Record t : Type := mk {
  task : option string;
  context : option string;
  draft : option string;
  issues : option (list ComplianceIssue);
  i : option Z;
  max_iters : option Z;
  final : option string
}.

Definition empty : t := mk None None None None None None None.

Definition over {A} (new old : option A) : option A :=
  match new with Some v => Some v | None => old end.

(** The state after a node's update: the keys the node returned replace
    the old values, every other key is kept. *)
Definition update (s d : t) : t :=
  mk (over (task d) (task s)) (over (context d) (context s))
     (over (draft d) (draft s)) (over (issues d) (issues s))
     (over (i d) (i s)) (over (max_iters d) (max_iters s))
     (over (final d) (final s)).

(** [state.get(key, default)] on an optional entry. *)
Definition get {A} (entry : option A) (default : A) : A :=
  match entry with Some v => v | None => default end.
End DocState.

(** Router after check: [decide_next(state)]. *)
Definition decide_next (state : DocState.t) : string :=
  let issues := DocState.get (DocState.issues state) [] in
  match issues with
  | [] => "end"
  | _ :: _ =>
      if (DocState.get (DocState.i state) 0 >=? DocState.get (DocState.max_iters state) 2)%Z
      then "end"
      else "revise"
  end.

(* ------------------------------------------------------------------ *)
(** ** Collaborators *)
(* ------------------------------------------------------------------ *)

(** A text generator: the model behind [prompt | llm | StrOutputParser()],
    asked with a system and a human message. *)
Definition Generator := history -> string -> string -> reply string.

(** Everything outside the program that a run depends on: the
    environment, the vector store, the text generator, and the opening of
    a file for appending. *)
Record World : Type := mkWorld {
  getenv : string -> option string;
  vectorstore : string -> reply Retriever;
  generate : Generator;
  open_append : string -> reply unit
}.

(** One call to a collaborator: recorded in the history, and an exception
    when the collaborator fails. *)
Definition call {A} (ev : event) (ask : history -> reply A) : M A :=
  fun h =>
    match ask h with
    | Returns a => (Ok a, (h ++ [ev])%list)
    | Fails msg => (Raise (CollaboratorError msg), (h ++ [ev])%list)
    end.

Definition API_KEY_MESSAGE : string :=
  "Please set ANTHROPIC_API_KEY environment variable.".

(** [get_llm()]: [not api_key] holds for [None] and for the empty string. *)
Definition get_llm (w : World) : M Generator :=
  match getenv w "ANTHROPIC_API_KEY" with
  | None => raise (RuntimeError API_KEY_MESSAGE)
  | Some EmptyString => raise (RuntimeError API_KEY_MESSAGE)
  | Some (String _ _) => ret (generate w)
  end.

(** [load_vectorstore(persist_dir)] followed by [as_retriever]. *)
Definition load_vectorstore (w : World) (persist_dir : string) : M Retriever :=
  fun h =>
    match vectorstore w persist_dir with
    | Returns r => (Ok r, h)
    | Fails msg => (Raise (CollaboratorError msg), h)
    end.

(* ------------------------------------------------------------------ *)
(** ** Nodes *)
(* ------------------------------------------------------------------ *)

(** Node: retrieve *)
Definition make_retrieve_node (retriever : Retriever)
  (state : DocState.t) : M DocState.t :=
  task <- getitem "task" (DocState.task state);;
  docs <- call (Retrieval task) (fun h => retriever h task);;
  ret (DocState.mk None (Some (fmt_context docs)) None None None None None).

(** Node: draft *)
Definition draft_node (w : World) (state : DocState.t) : M DocState.t :=
  llm <- get_llm w;;
  task <- getitem "task" (DocState.task state);;
  let context := DocState.get (DocState.context state) "" in
  let human := DRAFT_PROMPT task context in
  draft <- call (Generation NDraft DRAFT_SYSTEM human)
             (fun h => llm h DRAFT_SYSTEM human);;
  ret (DocState.mk None None (Some draft) None None None None).

(** Node: compliance check *)
Definition check_node (state : DocState.t) : M DocState.t :=
  text <- getitem "draft" (DocState.draft state);;
  result <- (fun h => (Ok (compliance_check text), (h ++ [Compliance text])%list));;
  ret (DocState.mk None None None (Some (issues result)) None None None).

(** The bulleted list of issues given to the reviser. *)
Definition issues_str (l : list ComplianceIssue) : string :=
  PyStr.join PyStr.nl (map (fun i => "- " ++ rule i ++ ": " ++ message i) l).

(** Node: revise *)
Definition revise_node (w : World) (state : DocState.t) : M DocState.t :=
  llm <- get_llm w;;
  let issues_text := issues_str (DocState.get (DocState.issues state) []) in
  draft <- getitem "draft" (DocState.draft state);;
  let human := REVISION_PROMPT draft issues_text in
  revised <- call (Generation NRevise REVISION_SYSTEM human)
               (fun h => llm h REVISION_SYSTEM human);;
  ret (DocState.mk None None (Some revised) None
         (Some (DocState.get (DocState.i state) 0 + 1)%Z) None None).

(* ------------------------------------------------------------------ *)
(** ** The graph *)
(* ------------------------------------------------------------------ *)

(** A compiled graph: the function of every node, the entry point, and the
    edge taken after a node on the updated state. *)
Record CompiledGraph : Type := mkGraph {
  node_fn : node -> DocState.t -> M DocState.t;
  entry_point : node;
  edge : node -> DocState.t -> M target
}.

(** The mapping [{"revise": "revise", "end": END}] of the conditional edge. *)
Definition path_map (key : string) : M target :=
  if String.eqb key "revise" then ret (Goto NRevise)
  else if String.eqb key "end" then ret END
  else raise (KeyError key).

(** [build_graph(retriever)] *)
Definition build_graph (w : World) (retriever : Retriever) : CompiledGraph :=
  mkGraph
    (fun n =>
       match n with
       | NRetrieve => make_retrieve_node retriever
       | NDraft => draft_node w
       | NCheck => check_node
       | NRevise => revise_node w
       end)
    NRetrieve
    (fun n state =>
       match n with
       | NRetrieve => ret (Goto NDraft)
       | NDraft => ret (Goto NCheck)
       | NCheck => path_map (decide_next state)
       | NRevise => ret (Goto NCheck)
       end).

(** An observer is told the node that ran and the update it returned. *)
Definition Observer := node -> DocState.t -> M unit.

Definition no_observer : Observer := fun _ _ => ret tt.

(** One step of the graph: run the node, apply its update, notify the
    observer, follow the edge. *)
Definition step (app : CompiledGraph) (obs : Observer)
  (n : node) (state : DocState.t) : M (target * DocState.t) :=
  delta <- node_fn app n state;;
  let state' := DocState.update state delta in
  obs n delta >>
  t <- edge app n state';;
  ret (t, state').

(** The graph run from node [n]; [limit] is the recursion limit of the
    graph library: the run is stopped with [GraphRecursionError] once
    [limit] steps have been made, also when the step that used up the
    limit was the one that reached the end. *)
Fixpoint run_from (app : CompiledGraph) (obs : Observer) (limit : nat)
  (n : node) (state : DocState.t) : M DocState.t :=
  match limit with
  | O => raise GraphRecursionError
  | S limit' =>
      r <- step app obs n state;;
      match fst r with
      | END =>
          match limit' with
          | O => raise GraphRecursionError
          | S _ => ret (snd r)
          end
      | Goto n' => run_from app obs limit' n' (snd r)
      end
  end.

(** [app.invoke(state)] *)
Definition invoke (app : CompiledGraph) (limit : nat)
  (state : DocState.t) : M DocState.t :=
  run_from app no_observer limit (entry_point app) state.

(** The library's default recursion limit. *)
Definition recursion_limit : nat := 25.

(* ------------------------------------------------------------------ *)
(** ** Streaming *)
(* ------------------------------------------------------------------ *)

(** The names bound at module level when the module has been loaded: its
    imports, classes, constants and functions. *)
Definition module_globals : list string :=
  [ "annotations"; "os"; "sys"; "argparse"; "dataclass";
    "List"; "Dict"; "Tuple"; "Optional"; "TypedDict";
    "ChatAnthropic"; "ChatPromptTemplate"; "StrOutputParser"; "tool";
    "Chroma"; "HuggingFaceEmbeddings"; "PyPDFLoader"; "Document";
    "StateGraph"; "END";
    "ComplianceIssue"; "compliance_check"; "get_llm";
    "DRAFT_PROMPT"; "REVISION_PROMPT";
    "load_pdfs"; "build_vectorstore"; "load_vectorstore";
    "DocState"; "fmt_context"; "make_retrieve_node"; "draft_node";
    "check_node"; "revise_node"; "decide_next"; "build_graph";
    "Console"; "Panel"; "Padding"; "Text";
    "stream_run"; "export_graph_mermaid"; "try_langgraph_png";
    "run_demo"; "main" ].

(** Reading a global name that is not a builtin: [NameError] when the
    module does not bind it. *)
Definition global_name (globals : list string) (name : string) : M unit :=
  if existsb (String.eqb name) globals then ret tt else raise (NameError name).

(** [events_path if events_path else None]: the path of the events file,
    none when no path or the empty path is given. *)
Definition events_file (events_path : option string) : option string :=
  match events_path with
  | Some EmptyString => None
  | Some path => Some path
  | None => None
  end.

(** The body of the loop of [stream_run] for one event.  The time stamp is
    read from [dt]; the panel is printed; with an events file, the event is
    serialised with [json] inside [try ... except Exception: pass].
    Printing and writing change nothing that is modelled here. *)
Definition on_event (globals : list string) (events_path : option string)
  : Observer :=
  fun _ _ =>
    global_name globals "dt" >>
    match events_file events_path with
    | Some _ => try_pass (global_name globals "json")
    | None => ret tt
    end.

(** [open(events_path, "a")] when an events path is given: the operating
    system may refuse it. *)
Definition open_events (w : World) (events_path : option string) : M unit :=
  match events_file events_path with
  | None => ret tt
  | Some path =>
      fun h =>
        match open_append w path with
        | Returns u => (Ok u, h)
        | Fails msg => (Raise (CollaboratorError msg), h)
        end
  end.

(** [stream_run(app, state_init, events_path)]: the events file is opened
    first; then [app.stream] yields an event after every step, and the loop
    body runs before the next step. *)
Definition stream_run (globals : list string) (w : World) (app : CompiledGraph)
  (limit : nat) (state_init : DocState.t) (events_path : option string)
  : M unit :=
  open_events w events_path >>
  run_from app (on_event globals events_path) limit (entry_point app) state_init
  >> ret tt.

(* ------------------------------------------------------------------ *)
(** ** The demo driver *)
(* ------------------------------------------------------------------ *)

Definition DEFAULT_TASK : string :=
  "Write a " ++ String (ascii_of_nat 34) "Protocol Synopsis"
  ++ String (ascii_of_nat 34)
       " paragraph for an interventional Phase II oncology trial. "
  ++ "Mention design, key eligibility, primary endpoint, AE reporting basics, data protection, and informed consent.".

(** [if not task: task = (...)]: the default replaces [None] and the empty
    string. *)
Definition task_or_default (task : option string) : string :=
  match task with
  | None => DEFAULT_TASK
  | Some EmptyString => DEFAULT_TASK
  | Some t => t
  end.

(** The initial state built by [run_demo]. *)
Definition initial_state (task : string) (max_iters : Z) : DocState.t :=
  DocState.mk (Some task) None None None (Some 0%Z) (Some max_iters) None.

(** [run_demo(persist_dir, task, stream, events_path)]; the result is the
    final text that is printed. *)
Definition run_demo (globals : list string) (w : World)
  (persist_dir : string) (task : option string) (stream : bool)
  (events_path : option string) : M string :=
  retriever <- load_vectorstore w persist_dir;;
  let app := build_graph w retriever in
  let task := task_or_default task in
  let state := initial_state task 2 in
  (if stream
   then stream_run globals w app recursion_limit state events_path
   else ret tt) >>
  final_state <- invoke app recursion_limit state;;
  ret (DocState.get (DocState.draft final_state) "").

(** [str(e)]; the text of the library's recursion error is not
    reproduced. *)
Definition exn_str (e : exn) : string :=
  match e with
  | RuntimeError msg => msg
  | NameError name => "name '" ++ name ++ "' is not defined"
  | KeyError key => "'" ++ key ++ "'"
  | GraphRecursionError => "Recursion limit reached"
  | CollaboratorError msg => msg
  end.

(** [main()] when only [--run] is asked for, with its options: the exit
    status and the lines printed. *)
Definition main_run (w : World) (persist : string) (task : option string)
  (stream : bool) (events : option string) : history -> (Z * list string) * history :=
  fun h =>
    match run_demo module_globals w persist task stream events h with
    | (Ok final_text, h') => ((0%Z, ["=== FINAL OUTPUT ==="; final_text]), h')
    | (Raise e, h') => ((1%Z, ["Error: " ++ exn_str e]), h')
    end.

(* ------------------------------------------------------------------ *)
(** ** Ingestion and the command line *)
(* ------------------------------------------------------------------ *)

Module PyOs.

(** [s.endswith(suffix)] *)
Fixpoint endswith (s suffix : string) : bool :=
  String.eqb s suffix ||
  match s with
  | EmptyString => false
  | String _ s' => endswith s' suffix
  end.

(** [os.path.join(a, b)] (POSIX) *)
Definition join (a b : string) : string :=
  if PyStr.startswith b "/" then b
  else match a with
       | EmptyString => b
       | _ => if endswith a "/" then a ++ b else a ++ "/" ++ b
       end.

End PyOs.

(** An exception of the ingest path: [FileNotFoundError], or one of the
    exceptions above. *)
Inductive host_exn : Type :=
| FileNotFoundError (msg : string)
| Exn (e : exn).

Inductive outcome (A : Type) : Type :=
| Returned (a : A)
| Raised (e : host_exn).

Arguments Returned {A} a.

Arguments Raised {A} e.

(** The file system as ingestion sees it: [os.path.isdir], the pairs
    (root, files) that [os.walk] yields, and [PyPDFLoader(path).load()]. *)
Record FileSystem : Type := mkFS {
  isdir : string -> bool;
  walk : string -> list (string * list string);
  pdf_loader : string -> reply (list Document)
}.

(** The inner loop of [load_pdfs] over the files of one directory; [docs]
    are the documents so far and [loaded] the paths given to the loader. *)
Fixpoint load_files (fs : FileSystem) (root : string) (files : list string)
  (docs : list Document) (loaded : list string)
  : outcome (list Document) * list string :=
  match files with
  | [] => (Returned docs, loaded)
  | fn :: rest =>
      if PyOs.endswith (PyStr.lower fn) ".pdf"
      then
        let path := PyOs.join root fn in
        match pdf_loader fs path with
        | Returns pages =>
            load_files fs root rest (docs ++ pages)%list (loaded ++ [path])%list
        | Fails msg =>
            (Raised (Exn (CollaboratorError msg)), (loaded ++ [path])%list)
        end
      else load_files fs root rest docs loaded
  end.

(** The outer loop of [load_pdfs] over what [os.walk] yields. *)
Fixpoint load_dirs (fs : FileSystem) (dirs : list (string * list string))
  (docs : list Document) (loaded : list string)
  : outcome (list Document) * list string :=
  match dirs with
  | [] => (Returned docs, loaded)
  | (root, files) :: rest =>
      match load_files fs root files docs loaded with
      | (Returned docs', loaded') => load_dirs fs rest docs' loaded'
      | (Raised e, loaded') => (Raised e, loaded')
      end
  end.

(** [load_pdfs(pdf_dir)], with the paths that were given to the loader. *)
Definition load_pdfs (fs : FileSystem) (pdf_dir : string)
  : outcome (list Document) * list string :=
  if negb (isdir fs pdf_dir)
  then (Raised (FileNotFoundError ("PDF directory not found: " ++ pdf_dir)), [])
  else
    match load_dirs fs (walk fs pdf_dir) [] [] with
    | (Returned [], loaded) =>
        (Raised (Exn (RuntimeError "No PDFs found to ingest.")), loaded)
    | r => r
    end.

(** What [argparse] returns. *)
Module Args.
Record t : Type := mk {
  ingest : bool;
  pdf_dir : string;
  persist : string;
  run : bool;
  stream : bool;
  events : option string;
  viz : bool;
  task : option string
}.
End Args.

(** What surrounds the program on the host: the collaborators of a run,
    the file system, the indexing of documents into the persisted store
    (embeddings, [Chroma.from_documents], [persist]), the drawing of the
    graph ([Returns false] when the library has no drawing method), and
    the writing of a text file. *)
Record Host : Type := mkHost {
  world : World;
  files : FileSystem;
  index_documents : list Document -> string -> reply unit;
  draw_png : reply bool;
  write_file : string -> string -> reply unit
}.

(** The messages that [main] and what it calls print. *)
Inductive line : Type :=
| IngestLoading (pdf_dir : string)
| IngestCompleted (persist_dir : string)
| VizPng
| VizMermaid (path : string)
| FinalOutput (text : string)
| Help
| ErrorLine (msg : string).

(** What a command has done. *)
Record Effects : Type := mkEffects {
  loaded : list string;
  indexed : list (string * list Document);
  written : list (string * string);
  printed : list line;
  calls : history
}.

Definition no_effects : Effects := mkEffects [] [] [] [] [].

Definition Cmd (A : Type) : Type := Effects -> outcome A * Effects.

Definition hret {A} (a : A) : Cmd A := fun eff => (Returned a, eff).

Definition hbind {A B} (m : Cmd A) (k : A -> Cmd B) : Cmd B :=
  fun eff =>
    match m eff with
    | (Returned a, eff') => k a eff'
    | (Raised e, eff') => (Raised e, eff')
    end.

(** A computation of the graph layer, run on the calls made so far. *)
Definition liftM {A} (m : M A) : Cmd A :=
  fun eff =>
    match m (calls eff) with
    | (Ok a, h) =>
        (Returned a, mkEffects (loaded eff) (indexed eff) (written eff) (printed eff) h)
    | (Raise e, h) =>
        (Raised (Exn e),
         mkEffects (loaded eff) (indexed eff) (written eff) (printed eff) h)
    end.

Definition print (l : line) : Cmd unit :=
  fun eff =>
    (Returned tt,
     mkEffects (loaded eff) (indexed eff) (written eff) (printed eff ++ [l]) (calls eff)).

(** [build_vectorstore(pdf_dir, persist_dir)] *)
Definition build_vectorstore (host : Host) (pdf_dir persist_dir : string) : Cmd unit :=
  fun eff =>
    match load_pdfs (files host) pdf_dir with
    | (Raised e, paths) =>
        (Raised e,
         mkEffects (loaded eff ++ paths) (indexed eff) (written eff) (printed eff)
           (calls eff))
    | (Returned docs, paths) =>
        let eff' :=
          mkEffects (loaded eff ++ paths) (indexed eff ++ [(persist_dir, docs)])
            (written eff) (printed eff) (calls eff) in
        match index_documents host docs persist_dir with
        | Returns _ => (Returned tt, eff')
        | Fails msg => (Raised (Exn (CollaboratorError msg)), eff')
        end
    end.

(** [try_langgraph_png(app)]: every exception is swallowed. *)
Definition try_langgraph_png (host : Host) : bool :=
  match draw_png host with
  | Returns b => b
  | Fails _ => false
  end.

Definition MERMAID : string :=
  "flowchart TD" ++ PyStr.nl
  ++ "  R[retrieve] --> D[draft]" ++ PyStr.nl
  ++ "  D --> C[check]" ++ PyStr.nl
  ++ "  C -- no issues / max iters --> E{{END}}" ++ PyStr.nl
  ++ "  C -- issues remain --> V[revise]" ++ PyStr.nl
  ++ "  V --> C".

(** [export_graph_mermaid(filepath)] *)
Definition export_graph_mermaid (host : Host) (filepath : string) : Cmd string :=
  fun eff =>
    let eff' :=
      mkEffects (loaded eff) (indexed eff) (written eff ++ [(filepath, MERMAID)])
        (printed eff) (calls eff) in
    match write_file host filepath MERMAID with
    | Returns _ => (Returned filepath, eff')
    | Fails msg => (Raised (Exn (CollaboratorError msg)), eff')
    end.

(** [str(e)] *)
Definition host_exn_str (e : host_exn) : string :=
  match e with
  | FileNotFoundError msg => msg
  | Exn e' => exn_str e'
  end.

(** The four [if] blocks in the [try] of [main]. *)
Definition main_ingest (host : Host) (args : Args.t) : Cmd unit :=
  if Args.ingest args
  then hbind (print (IngestLoading (Args.pdf_dir args))) (fun _ =>
       hbind (build_vectorstore host (Args.pdf_dir args) (Args.persist args)) (fun _ =>
       print (IngestCompleted (Args.persist args))))
  else hret tt.

Definition main_viz (host : Host) (args : Args.t) : Cmd unit :=
  if Args.viz args
  then hbind (liftM (load_vectorstore (world host) (Args.persist args))) (fun _ =>
       if try_langgraph_png host
       then print VizPng
       else hbind (export_graph_mermaid host "graph.mmd") (fun path =>
            print (VizMermaid path)))
  else hret tt.

Definition main_demo (host : Host) (args : Args.t) : Cmd unit :=
  if Args.run args
  then hbind (liftM (run_demo module_globals (world host) (Args.persist args)
                       (Args.task args) (Args.stream args) (Args.events args))) (fun text =>
       print (FinalOutput text))
  else hret tt.

Definition main_help (args : Args.t) : Cmd unit :=
  if negb (Args.ingest args) && negb (Args.run args) && negb (Args.viz args)
  then print Help
  else hret tt.

(** The body of the [try] of [main]. *)
Definition main_body (host : Host) (args : Args.t) : Cmd unit :=
  hbind (main_ingest host args) (fun _ =>
  hbind (main_viz host args) (fun _ =>
  hbind (main_demo host args) (fun _ =>
  main_help args))).

(** [main()]: the exit status and what was done. *)
Definition main (host : Host) (args : Args.t) : Z * Effects :=
  match main_body host args no_effects with
  | (Returned _, eff) => (0%Z, eff)
  | (Raised e, eff) =>
      (1%Z,
       mkEffects (loaded eff) (indexed eff) (written eff)
         (printed eff ++ [ErrorLine ("Error: " ++ host_exn_str e)]) (calls eff))
  end.

(* ------------------------------------------------------------------ *)
(** ** The vocabulary of the specification *)
(* ------------------------------------------------------------------ *)

(** [needle] occurs in [text]. *)
Definition Contains (needle text : string) : Prop :=
  exists pre post, text = pre ++ needle ++ post.

(** [needle] occurs in [text] up to the case of the letters. *)
Definition ContainsCI (needle text : string) : Prop :=
  exists pre mid post,
    text = pre ++ mid ++ post /\ PyStr.lower mid = PyStr.lower needle.

Fixpoint all_chars (p : ascii -> bool) (s : string) : bool :=
  match s with
  | EmptyString => true
  | String c s' => p c && all_chars p s'
  end.

Definition is_blank (s : string) : Prop := all_chars PyStr.isspace s = true.

Definition is_word (s : string) : Prop :=
  s <> EmptyString /\ all_chars (fun c => negb (PyStr.isspace c)) s = true.

(** [Words text ws]: [ws] are the whitespace-delimited words of [text]:
    blanks, a word, then nothing or a whitespace character and more. *)
Inductive Words : string -> list string -> Prop :=
| Words_blank : forall sp, is_blank sp -> Words sp []
| Words_word : forall sp w rest ws,
    is_blank sp -> is_word w ->
    (rest = EmptyString \/
     exists c r, rest = String c r /\ PyStr.isspace c = true) ->
    Words rest ws ->
    Words (sp ++ w ++ rest) (w :: ws).

(** When each rule of section 4.1 fires. *)
Definition Fires_no_placeholders (text : string) : Prop :=
  Contains "TBD" text \/ ContainsCI "to be determined" text.
Definition Fires_risk_mitigation (text : string) : Prop :=
  ContainsCI "risk" text /\ ~ ContainsCI "mitigation" text.
Definition Fires_consent_withdrawal (text : string) : Prop :=
  ContainsCI "consent" text /\ ~ ContainsCI "withdraw" text.
Definition Fires_min_length (text : string) : Prop :=
  exists ws, Words text ws /\ (List.length ws < 150)%nat.

(** The rules as an ordered table: condition and issue. *)
Definition rule_table : list ((string -> bool) * ComplianceIssue) :=
  [ (cond_no_placeholders, issue_no_placeholders);
    (cond_risk_mitigation, issue_risk_mitigation);
    (cond_consent_withdrawal, issue_consent_withdrawal);
    (cond_min_length, issue_min_length) ].

(** The checker as the specification words it: every rule of the table is
    evaluated, the issues of those that fire are kept in table order, and
    [ok] says that none fired. *)
Definition check_by_table (text : string) : CheckResult :=
  mkCheck (forallb (fun r => negb (fst r text)) rule_table)
          (map snd (filter (fun r => fst r text) rule_table)).

(** The issue of a rule is reported exactly when that rule fires. *)
Definition Fires (x : ComplianceIssue) (text : string) : Prop :=
  (x = issue_no_placeholders /\ Fires_no_placeholders text)
  \/ (x = issue_risk_mitigation /\ Fires_risk_mitigation text)
  \/ (x = issue_consent_withdrawal /\ Fires_consent_withdrawal text)
  \/ (x = issue_min_length /\ Fires_min_length text).

(* ------------------------------------------------------------------ *)
(** ** Runs of the graph: vocabulary *)
(* ------------------------------------------------------------------ *)

Definition node_eqb (a b : node) : bool :=
  match a, b with
  | NRetrieve, NRetrieve | NDraft, NDraft | NCheck, NCheck | NRevise, NRevise => true
  | _, _ => false
  end.

Definition b2n (b : bool) : nat := if b then 1%nat else 0%nat.

(** An observer that makes no call of its own and does not raise the
    recursion error of the graph. *)
Definition quiet (obs : Observer) : Prop :=
  forall n d h, snd (obs n d h) = h /\ fst (obs n d h) <> Raise GraphRecursionError.

(** An observer that returns normally and makes no call. *)
Definition silent (obs : Observer) : Prop :=
  forall n d h, obs n d h = (Ok tt, h).

(** The credential of the text generator is set. *)
Definition key_present (w : World) : Prop :=
  exists c key, getenv w "ANTHROPIC_API_KEY" = Some (String c key).

(** No collaborator fails. *)
Definition healthy (w : World) (r : Retriever) : Prop :=
  key_present w
  /\ (forall h q, exists docs, r h q = Returns docs)
  /\ (forall h sy hu, exists d, generate w h sy hu = Returns d).

(** [d] is a text that the generator can return. *)
Definition produced (w : World) (d : string) : Prop :=
  exists h sy hu, generate w h sy hu = Returns d.

(** Every text that the generator returns fails the compliance check. *)
Definition every_check_fails (w : World) : Prop :=
  forall d, produced w d -> issues (compliance_check d) <> [].

(** The state holds a draft that came from the generator. *)
Definition drafted (w : World) (s : DocState.t) : Prop :=
  exists d, DocState.draft s = Some d /\ produced w d.

(** The state holds a draft and the issues found in that very draft. *)
Definition checked (w : World) (s : DocState.t) : Prop :=
  exists d, DocState.draft s = Some d /\ produced w d
    /\ DocState.issues s = Some (issues (compliance_check d)).

Definition needs_draft (n : node) : bool :=
  match n with NCheck | NRevise => true | _ => false end.

(** What holds after a step of node [n] that led to [t] in state [s']. *)
Definition drafted_after (w : World) (n : node) (t : target) (s' : DocState.t) : Prop :=
  match n with
  | NRetrieve => t = Goto NDraft
  | NDraft => t = Goto NCheck /\ drafted w s'
  | NRevise => t = Goto NCheck /\ drafted w s'
  | NCheck =>
      checked w s' /\ ((t = END /\ decide_next s' = "end") \/ t = Goto NRevise)
  end.

(** The bookkeeping after a step of node [n] from iteration count [k]. *)
Record step_ok (n : node) (N k : Z) (t : target) (s' : DocState.t) : Prop := {
  ok_max : DocState.max_iters s' = Some N;
  ok_i : DocState.i s' = Some (if node_eqb n NRevise then k + 1 else k)%Z;
  ok_target :
    match n with
    | NRetrieve => t = Goto NDraft
    | NDraft => t = Goto NCheck
    | NRevise => t = Goto NCheck
    | NCheck => t = END \/ (t = Goto NRevise /\ (k < N)%Z)
    end
}.

(** Steps that suffice to reach the end from node [n] with [remaining]
    revisions left. *)
Definition steps_to_end (n : node) (remaining : nat) : nat :=
  match n with
  | NRetrieve => 2 * remaining + 3
  | NDraft => 2 * remaining + 2
  | NCheck => 2 * remaining + 1
  | NRevise => 2 * remaining
  end.

(** What a run from node [n] with iteration count [k] and bound [N] adds to
    the history ([hd]), and how it ends ([res]). *)
Record run_summary (n : node) (N k : Z) (limit : nat)
  (res : result DocState.t) (hd : history) : Prop := {
  sum_revise : (calls_by NRevise hd <= Z.to_nat (N - k))%nat;
  sum_check :
    (calls_by NCheck hd <= Z.to_nat (N - k) + b2n (negb (node_eqb n NRevise)))%nat;
  sum_retrieve : (calls_by NRetrieve hd <= b2n (node_eqb n NRetrieve))%nat;
  sum_draft :
    (calls_by NDraft hd <= b2n (node_eqb n NRetrieve || node_eqb n NDraft))%nat;
  sum_result :
    match res with
    | Ok final =>
        calls_by NRetrieve hd = b2n (node_eqb n NRetrieve)
        /\ calls_by NDraft hd = b2n (node_eqb n NRetrieve || node_eqb n NDraft)
        /\ calls_by NCheck hd
           = (calls_by NRevise hd + b2n (negb (node_eqb n NRevise)))%nat
        /\ DocState.max_iters final = Some N
        /\ DocState.i final = Some (k + Z.of_nat (calls_by NRevise hd))%Z
    | Raise e =>
        e = GraphRecursionError -> (limit <= steps_to_end n (Z.to_nat (N - k)))%nat
    end
}.

(** The events file, when one is asked for, can be opened for appending. *)
Definition events_can_open (w : World) (events_path : option string) : Prop :=
  match events_file events_path with
  | None => True
  | Some path => exists u, open_append w path = Returns u
  end.

(** The credential of the text generator is absent or empty. *)
Definition key_missing (w : World) : Prop :=
  getenv w "ANTHROPIC_API_KEY" = None
  \/ getenv w "ANTHROPIC_API_KEY" = Some "".

(** The states a run of the graph passes through, from the initial state
    [s0]: the target is the node that runs next, or [END]. *)
Inductive reachable (app : CompiledGraph) (s0 : DocState.t)
  : target -> DocState.t -> Prop :=
| reach_start : reachable app s0 (Goto (entry_point app)) s0
| reach_step : forall n s h t s' h',
    reachable app s0 (Goto n) s ->
    step app no_observer n s h = (Ok (t, s'), h') ->
    reachable app s0 t s'.

(** [int(s)] for a string of decimal digits, from the value [acc] of the
    digits read so far. *)
Fixpoint int_of_digits (acc : nat) (s : string) : nat :=
  match s with
  | EmptyString => acc
  | String c s' => int_of_digits (10 * acc + (nat_of_ascii c - 48)) s'
  end.

(** A decimal digit. *)
Definition is_digit (c : ascii) : bool :=
  (48 <=? nat_of_ascii c)%nat && (nat_of_ascii c <=? 57)%nat.

(** The string holds no slash. *)
Definition slash_free (s : string) : Prop :=
  all_chars (fun c => negb (Ascii.eqb c "/"%char)) s = true.

(** The call [ev], made after the calls [h0], is one that the collaborator
    answered with the failure [msg]. *)
Definition failed_call (w : World) (r : Retriever) (msg : string)
  (h0 : history) (ev : event) : Prop :=
  match ev with
  | Retrieval q => r h0 q = Fails msg
  | Generation _ sy hu => generate w h0 sy hu = Fails msg
  | Compliance _ => False
  end.

(** The file name counts as a PDF. *)
Definition is_pdf_name (fn : string) : Prop :=
  exists stem, PyStr.lower fn = stem ++ ".pdf".

(** [path] was built from a directory and a PDF file that [os.walk]
    yielded under [pdf_dir]. *)
Definition walked_pdf (fs : FileSystem) (pdf_dir path : string) : Prop :=
  exists root files fn,
    In (root, files) (walk fs pdf_dir) /\ In fn files
    /\ is_pdf_name fn /\ path = PyOs.join root fn.

(** What holds of the documents read and the paths loaded so far. *)
Definition load_inv (fs : FileSystem) (pdf_dir : string)
  (docs : list Document) (loaded : list string) : Prop :=
  Forall (walked_pdf fs pdf_dir) loaded
  /\ exists outs,
       Forall2 (fun p pages => pdf_loader fs p = Returns pages) loaded outs
       /\ docs = concat outs.

(** What holds when the loops of [load_pdfs] stop. *)
Definition load_post (fs : FileSystem) (pdf_dir : string)
  (res : outcome (list Document) * list string) : Prop :=
  match res with
  | (Returned docs, loaded) => load_inv fs pdf_dir docs loaded
  | (Raised e, loaded) =>
      Forall (walked_pdf fs pdf_dir) loaded
      /\ exists msg before p,
           e = Exn (CollaboratorError msg)
           /\ loaded = (before ++ [p])%list
           /\ pdf_loader fs p = Fails msg
  end.

(** Every list of documents that was indexed is non-empty. *)
Definition indexed_ok (eff : Effects) : Prop :=
  Forall (fun x => snd x <> []) (indexed eff).

(* ------------------------------------------------------------------ *)
(** ** Sample inputs *)
(* ------------------------------------------------------------------ *)

Fixpoint repeat_string (n : nat) (s : string) : string :=
  match n with
  | O => EmptyString
  | S n' => s ++ repeat_string n' s
  end.

(** A retrieved snippet, a retriever that always returns it, a generator
    whose texts all keep a placeholder, and the worlds built from them:
    one with the credential set, one without. *)
Definition sample_document : Document :=
  mkDocument
    ("Informed consent must be documented." ++ PyStr.nl
     ++ "Subjects may withdraw at any time.")
    [("source", "/data/pdfs/ich_e6.pdf"); ("page", "12")].

Definition sample_retriever : Retriever := fun _ _ => Returns [sample_document].

Definition placeholder_generator : Generator :=
  fun h _ _ =>
    Returns
      match (calls_by NDraft h + calls_by NRevise h)%nat with
      | 0%nat => "TBD: initial draft"
      | 1%nat => "TBD: first revision"
      | _ => "TBD: second revision"
      end.

Definition sample_getenv (name : string) : option string :=
  if String.eqb name "ANTHROPIC_API_KEY" then Some "sk-test" else None.

Definition sample_world : World :=
  mkWorld sample_getenv (fun _ => Returns sample_retriever) placeholder_generator
    (fun _ => Returns tt).

Definition keyless_world : World :=
  mkWorld (fun _ => None) (fun _ => Returns sample_retriever) placeholder_generator
    (fun _ => Returns tt).

(** A text of exactly 150 words that names risk with mitigation and consent
    with withdrawal. *)
Definition text_150_words : string :=
  "Risk mitigation and consent withdraw " ++ repeat_string 145 "word ".

(** A retriever and a generator that fail, file systems with and without
    PDF files, and a host. *)
Definition failing_retriever : Retriever := fun _ _ => Fails "index unavailable".

Definition overloaded_generator : Generator :=
  fun h _ _ =>
    match (calls_by NDraft h + calls_by NRevise h)%nat with
    | 0%nat => Returns "TBD: initial draft"
    | _ => Fails "overloaded"
    end.

Definition overloaded_world : World :=
  mkWorld sample_getenv (fun _ => Returns sample_retriever) overloaded_generator
    (fun _ => Returns tt).

Definition sample_fs : FileSystem :=
  mkFS (fun d => String.eqb d "./pdfs")
       (fun _ => [("./pdfs", ["ich_e6.PDF"; "notes.txt"]);
                  ("./pdfs/fda", ["guidance.pdf"])])
       (fun p => Returns [mkDocument ("Text of " ++ p) [("source", p)]]).

Definition text_only_fs : FileSystem :=
  mkFS (fun _ => true) (fun _ => [("./pdfs", ["notes.txt"; "README"])])
       (fun _ => Fails "not a PDF").

Definition sample_host : Host :=
  mkHost sample_world sample_fs (fun _ _ => Returns tt)
         (Fails "graphviz is not installed") (fun _ _ => Returns tt).

(** A host on which documents load but cannot be indexed. *)
Definition full_disk_host : Host :=
  mkHost sample_world sample_fs (fun _ _ => Fails "disk full")
         (Fails "graphviz is not installed") (fun _ _ => Fails "disk full").

Definition no_flags : Args.t :=
  Args.mk false "./pdfs" "./chroma" false false None false None.

(* ================================================================== *)
(** * Properties *)
(* ================================================================== *)

(** ** Strings *)

Lemma append_nil_r (s : string) : s ++ "" = s.
Proof. induction s as [|c s IH]; simpl; [reflexivity | now rewrite IH]. Qed.

Lemma append_assoc (a b c : string) : (a ++ b) ++ c = a ++ (b ++ c).
Proof. induction a as [|x a IH]; simpl; [reflexivity | now rewrite IH]. Qed.

Lemma startswith_iff (s p : string) :
  PyStr.startswith s p = true <-> exists t, s = p ++ t.
Proof.
  revert s; induction p as [|a p IH]; intros s; simpl.
  - split; [intros _; now exists s | intros _; now destruct s].
  - destruct s as [|b s]; simpl.
    + split; [discriminate | intros [t Ht]; discriminate].
    + rewrite andb_true_iff, Ascii.eqb_eq, IH. split.
      * intros [-> [t ->]]. now exists t.
      * intros [t Ht]. injection Ht as -> ->. split; [reflexivity | now exists t].
Qed.

Lemma contains_iff (needle s : string) :
  PyStr.contains needle s = true <-> Contains needle s.
Proof.
  unfold Contains. induction s as [|c s IH].
  - cbn [PyStr.contains]. rewrite orb_false_r, startswith_iff. split.
    + intros [t Ht]. now exists "", t.
    + intros [pre [post H]]. destruct pre; simpl in H; [now exists post | discriminate].
  - cbn [PyStr.contains]. rewrite orb_true_iff, startswith_iff, IH. split.
    + intros [[t Ht] | [pre [post H]]].
      * now exists "", t.
      * exists (String c pre), post. simpl. now rewrite H.
    + intros [pre [post H]]. destruct pre as [|x pre]; simpl in H.
      * left. now exists post.
      * right. injection H as _ H. now exists pre, post.
Qed.

Lemma lower_app (a b : string) :
  PyStr.lower (a ++ b) = PyStr.lower a ++ PyStr.lower b.
Proof. induction a as [|c a IH]; simpl; [reflexivity | now rewrite IH]. Qed.

Lemma lower_app_inv (s a' b' : string) :
  PyStr.lower s = a' ++ b' ->
  exists a b, s = a ++ b /\ PyStr.lower a = a' /\ PyStr.lower b = b'.
Proof.
  revert s; induction a' as [|x a' IH]; intros s H; simpl in H.
  - now exists "", s.
  - destruct s as [|c s]; simpl in H; [discriminate|].
    injection H as Hx H. destruct (IH s H) as [a [b [-> [Ha Hb]]]].
    exists (String c a), b. simpl. now rewrite Hx, Ha.
Qed.

Lemma contains_lower_iff (needle s : string) :
  PyStr.lower needle = needle ->
  PyStr.contains needle (PyStr.lower s) = true <-> ContainsCI needle s.
Proof.
  intros Hn. rewrite contains_iff. unfold Contains, ContainsCI. split.
  - intros [pre' [post' H]].
    destruct (lower_app_inv _ _ _ H) as [pre [rest [-> [_ Hrest]]]].
    destruct (lower_app_inv _ _ _ Hrest) as [mid [post [-> [Hmid _]]]].
    exists pre, mid, post. now rewrite Hn.
  - intros [pre [mid [post [-> Hmid]]]].
    exists (PyStr.lower pre), (PyStr.lower post).
    now rewrite !lower_app, Hmid, Hn.
Qed.

Example str_of_nat_examples :
  PyStr.str_of_nat 0 = "0" /\ PyStr.str_of_nat 7 = "7"
  /\ PyStr.str_of_nat 10 = "10" /\ PyStr.str_of_nat 350 = "350".
Proof. repeat split. Qed.

Example basename_examples :
  PyStr.basename "/data/pdfs/ich_e6.pdf" = "ich_e6.pdf"
  /\ PyStr.basename "doc" = "doc" /\ PyStr.basename "pdfs/" = "".
Proof. repeat split. Qed.

Example split_examples :
  PyStr.split "  informed   consent " = ["informed"; "consent"]
  /\ PyStr.split ("a" ++ PyStr.nl ++ "b") = ["a"; "b"]
  /\ PyStr.split "   " = [].
Proof. repeat split. Qed.

Example lower_examples :
  PyStr.lower "To Be Determined: RISK" = "to be determined: risk".
Proof. reflexivity. Qed.

(** ** Words *)

Lemma all_chars_app (p : ascii -> bool) (a b : string) :
  all_chars p (a ++ b) = all_chars p a && all_chars p b.
Proof.
  induction a as [|c a IH]; simpl; [reflexivity|].
  now rewrite IH, andb_assoc.
Qed.

Lemma Words_space_cons (c : ascii) (s : string) (ws : list string) :
  PyStr.isspace c = true -> Words s ws -> Words (String c s) ws.
Proof.
  intros Hc H. destruct H as [sp Hsp | sp w rest ws Hsp Hw Hrest H].
  - apply Words_blank. unfold is_blank in *. simpl. now rewrite Hc, Hsp.
  - change (String c (sp ++ w ++ rest)) with (String c sp ++ w ++ rest).
    apply Words_word; try assumption.
    unfold is_blank in *. simpl. now rewrite Hc, Hsp.
Qed.

Lemma Words_nil : Words "" [].
Proof. now apply Words_blank. Qed.

Lemma split_from_Words (s cur : string) :
  all_chars (fun c => negb (PyStr.isspace c)) cur = true ->
  Words (cur ++ s) (PyStr.split_from cur s).
Proof.
  revert cur. induction s as [|c s IH]; intros cur Hcur.
  - destruct cur as [|x cur]; [apply Words_nil|].
    apply (Words_word "" (String x cur) "" []).
    + reflexivity.
    + split; [discriminate | assumption].
    + now left.
    + apply Words_nil.
  - cbn [PyStr.split_from]. destruct (PyStr.isspace c) eqn:Hc.
    + assert (Hs : Words (String c s) (PyStr.split_from "" s)).
      { apply Words_space_cons; [assumption|]. now apply (IH ""). }
      destruct cur as [|x cur]; [exact Hs|].
      apply (Words_word "" (String x cur) (String c s)).
      * reflexivity.
      * split; [discriminate | assumption].
      * right. now exists c, s.
      * exact Hs.
    + replace (cur ++ String c s) with ((cur ++ String c "") ++ s)
        by now rewrite append_assoc.
      apply IH. rewrite all_chars_app, Hcur. simpl. now rewrite Hc.
Qed.

(** [split] returns the words of the text. *)
Lemma split_Words (s : string) : Words s (PyStr.split s).
Proof. now apply (split_from_Words s ""). Qed.

Lemma split_from_blank (sp s : string) :
  is_blank sp -> PyStr.split_from "" (sp ++ s) = PyStr.split_from "" s.
Proof.
  unfold is_blank. induction sp as [|c sp IH]; simpl; [reflexivity|].
  intros H. apply andb_true_iff in H as [Hc Hsp]. rewrite Hc. now apply IH.
Qed.

Lemma split_from_word (w s cur : string) :
  all_chars (fun c => negb (PyStr.isspace c)) w = true ->
  PyStr.split_from cur (w ++ s) = PyStr.split_from (cur ++ w) s.
Proof.
  revert cur. induction w as [|c w IH]; intros cur H; simpl.
  - now rewrite append_nil_r.
  - simpl in H. apply andb_true_iff in H as [Hc Hw].
    apply negb_true_iff in Hc. rewrite Hc, IH by assumption.
    now rewrite append_assoc.
Qed.

(** The words of a text are unique: they are what [split] returns. *)
Lemma Words_split (s : string) (ws : list string) :
  Words s ws -> PyStr.split s = ws.
Proof.
  unfold PyStr.split.
  induction 1 as [sp Hsp | sp w rest ws Hsp [Hne Hw] Hrest H IH].
  - rewrite <- (append_nil_r sp). now rewrite split_from_blank.
  - rewrite split_from_blank, split_from_word by assumption. simpl.
    destruct Hrest as [-> | [c [r [-> Hc]]]].
    + simpl in IH. subst ws. destruct w; [contradiction | reflexivity].
    + cbn [PyStr.split_from] in *. rewrite Hc in *. rewrite IH.
      destruct w; [contradiction | reflexivity].
Qed.

Lemma Words_length (s : string) (ws : list string) :
  Words s ws -> List.length ws = List.length (PyStr.split s).
Proof. intros H. now rewrite (Words_split s ws H). Qed.

(** ** The conditions of the checker against the rules of the specification *)

Lemma cond_no_placeholders_iff (text : string) :
  cond_no_placeholders text = true <-> Fires_no_placeholders text.
Proof.
  unfold cond_no_placeholders, Fires_no_placeholders.
  now rewrite orb_true_iff, contains_iff, contains_lower_iff.
Qed.

Lemma cond_risk_mitigation_iff (text : string) :
  cond_risk_mitigation text = true <-> Fires_risk_mitigation text.
Proof.
  unfold cond_risk_mitigation, Fires_risk_mitigation.
  rewrite andb_true_iff, negb_true_iff, <- not_true_iff_false.
  now rewrite !contains_lower_iff.
Qed.

Lemma cond_consent_withdrawal_iff (text : string) :
  cond_consent_withdrawal text = true <-> Fires_consent_withdrawal text.
Proof.
  unfold cond_consent_withdrawal, Fires_consent_withdrawal.
  rewrite andb_true_iff, negb_true_iff, <- not_true_iff_false.
  now rewrite !contains_lower_iff.
Qed.

Lemma cond_min_length_iff (text : string) :
  cond_min_length text = true <-> Fires_min_length text.
Proof.
  unfold cond_min_length, Fires_min_length. rewrite Nat.ltb_lt. split.
  - intros H. exists (PyStr.split text). split; [apply split_Words | exact H].
  - intros [ws [Hws H]]. now rewrite <- (Words_length _ _ Hws).
Qed.

(** The sequence of [if] statements is the table-driven checker. *)
Lemma compliance_check_by_table (text : string) :
  compliance_check text = check_by_table text.
Proof.
  unfold compliance_check, check_by_table, rule_table, append_if.
  cbn [forallb filter map fst snd].
  destruct (cond_no_placeholders text), (cond_risk_mitigation text),
    (cond_consent_withdrawal text), (cond_min_length text); reflexivity.
Qed.

(** ** The compliance checker *)

Lemma ok_iff_no_issue (text : string) :
  ok (compliance_check text) = true <-> issues (compliance_check text) = [].
Proof.
  unfold compliance_check. cbn [ok issues].
  destruct (append_if _ _ _) as [|x l]; simpl; split;
    try reflexivity; discriminate.
Qed.

Lemma issue_reported_iff (text : string) (x : ComplianceIssue) :
  In x (issues (compliance_check text)) <-> Fires x text.
Proof.
  unfold Fires.
  rewrite <- cond_no_placeholders_iff, <- cond_risk_mitigation_iff,
    <- cond_consent_withdrawal_iff, <- cond_min_length_iff.
  rewrite compliance_check_by_table.
  unfold check_by_table, rule_table. cbn [issues filter map fst snd].
  destruct (cond_no_placeholders text), (cond_risk_mitigation text),
    (cond_consent_withdrawal text), (cond_min_length text);
    cbn [map snd In]; intuition (try discriminate; auto).
Qed.

(** C5: a text of at least 150 whitespace-delimited words that contains
    neither "TBD" nor (in any case) "to be determined", names "risk" only
    together with "mitigation" and "consent" only together with "withdraw",
    passes the check: [ok] is true and the list of issues is empty. *)
Theorem compliant_text_passes (text : string) (ws : list string) :
  Words text ws ->
  (150 <= List.length ws)%nat ->
  ~ Contains "TBD" text ->
  ~ ContainsCI "to be determined" text ->
  (ContainsCI "risk" text -> ContainsCI "mitigation" text) ->
  (ContainsCI "consent" text -> ContainsCI "withdraw" text) ->
  compliance_check text = mkCheck true [].
Proof.
  intros Hws Hlen Htbd Hph Hrisk Hconsent.
  assert (H1 : cond_no_placeholders text = false).
  { apply not_true_iff_false. rewrite cond_no_placeholders_iff.
    intros [H | H]; contradiction. }
  assert (H2 : cond_risk_mitigation text = false).
  { apply not_true_iff_false. rewrite cond_risk_mitigation_iff.
    intros [H Hn]. apply Hn, Hrisk, H. }
  assert (H3 : cond_consent_withdrawal text = false).
  { apply not_true_iff_false. rewrite cond_consent_withdrawal_iff.
    intros [H Hn]. apply Hn, Hconsent, H. }
  assert (H4 : cond_min_length text = false).
  { apply not_true_iff_false. rewrite cond_min_length_iff.
    intros [ws' [Hws' Hlt]].
    rewrite (Words_length _ _ Hws') in Hlt.
    rewrite (Words_length _ _ Hws) in Hlen. lia. }
  unfold compliance_check. now rewrite H1, H2, H3, H4.
Qed.

Lemma compliant_text_passes_witness :
  Words text_150_words (PyStr.split text_150_words)
  /\ List.length (PyStr.split text_150_words) = 150%nat
  /\ ContainsCI "risk" text_150_words
  /\ ContainsCI "consent" text_150_words
  /\ compliance_check text_150_words = mkCheck true [].
Proof.
  split; [apply split_Words|].
  split; [vm_compute; reflexivity|].
  split; [apply contains_lower_iff; vm_compute; reflexivity|].
  split; [apply contains_lower_iff; vm_compute; reflexivity|].
  apply (compliant_text_passes text_150_words (PyStr.split text_150_words)).
  - apply split_Words.
  - vm_compute. lia.
  - intros H. apply contains_iff in H. vm_compute in H. discriminate.
  - intros H. apply contains_lower_iff in H; [|reflexivity].
    vm_compute in H. discriminate.
  - intros _. apply contains_lower_iff; vm_compute; reflexivity.
  - intros _. apply contains_lower_iff; vm_compute; reflexivity.
Defined.

(** C6: a text of fewer than 150 whitespace-delimited words always gets a
    [min_length] issue, whatever else it contains; and the text "TBD" gets
    exactly the issues [no_placeholders] and [min_length], in this order. *)
Theorem short_text_min_length (text : string) (ws : list string) :
  Words text ws ->
  (List.length ws < 150)%nat ->
  In issue_min_length (issues (compliance_check text))
  /\ rule issue_min_length = "min_length"
  /\ issues (compliance_check "TBD") = [issue_no_placeholders; issue_min_length]
  /\ map rule (issues (compliance_check "TBD")) = ["no_placeholders"; "min_length"].
Proof.
  intros Hws Hlen. split; [|repeat split].
  apply issue_reported_iff. unfold Fires. do 3 right.
  split; [reflexivity|]. now exists ws.
Qed.

Lemma short_text_min_length_witness :
  Words "TBD" ["TBD"]
  /\ In issue_min_length (issues (compliance_check "TBD")).
Proof.
  assert (H : Words "TBD" ["TBD"]).
  { apply (Words_word "" "TBD" "" []).
    - reflexivity.
    - split; [discriminate | reflexivity].
    - now left.
    - apply Words_blank. reflexivity. }
  split; [exact H|].
  apply (short_text_min_length "TBD" ["TBD"] H). simpl. lia.
Defined.

(** C7: for every text all four rules are evaluated; the issues returned are
    exactly those of the rules that fire, in the order [no_placeholders],
    [risk_mitigation], [consent_withdrawal], [min_length]; and [ok] is true
    exactly when no rule fires. *)
Theorem check_reports_fired_rules_in_order (text : string) :
  compliance_check text = check_by_table text
  /\ map rule (map snd rule_table)
     = ["no_placeholders"; "risk_mitigation"; "consent_withdrawal"; "min_length"]
  /\ (forall x, In x (issues (compliance_check text)) <-> Fires x text)
  /\ (ok (compliance_check text) = true <-> forall x, ~ Fires x text).
Proof.
  split; [apply compliance_check_by_table|].
  split; [reflexivity|].
  split; [intros x; apply issue_reported_iff|].
  rewrite ok_iff_no_issue. split.
  - intros Hnil x HF. apply issue_reported_iff in HF.
    rewrite Hnil in HF. contradiction.
  - intros H. destruct (issues (compliance_check text)) as [|x l] eqn:E;
      [reflexivity|].
    exfalso. apply (H x), issue_reported_iff. rewrite E. now left.
Qed.

(** C10: the empty text fires none of the three content rules and has no
    word: the check returns [ok = false] with the single issue
    [min_length]. *)
Theorem empty_text_only_min_length :
  compliance_check "" = mkCheck false [issue_min_length]
  /\ map rule (issues (compliance_check "")) = ["min_length"]
  /\ cond_no_placeholders "" = false
  /\ cond_risk_mitigation "" = false
  /\ cond_consent_withdrawal "" = false
  /\ List.length (PyStr.split "") = 0%nat.
Proof. repeat split. Qed.

(** ** The graph *)

Local Arguments compliance_check : simpl never.

Lemma node_fn_spec (w : World) (r : Retriever) (n : node)
  (s : DocState.t) (h : history) (k : Z) :
  DocState.i s = Some k ->
  exists evs,
    snd (node_fn (build_graph w r) n s h) = (h ++ evs)%list
    /\ (evs = [] \/ exists ev, evs = [ev] /\ event_by n ev = true)
    /\ match fst (node_fn (build_graph w r) n s h) with
       | Ok d => (exists ev, evs = [ev])
                 /\ DocState.max_iters d = None
                 /\ DocState.i d = (if node_eqb n NRevise then Some (k + 1)%Z else None)
       | Raise e => e <> GraphRecursionError
       end.
Proof.
  intros Hi.
  destruct s as [task context draft iss i max final]. simpl in Hi. subst i.
  destruct n; cbn [build_graph node_fn].
  - unfold make_retrieve_node, bind, getitem, call, ret, raise. cbn.
    destruct task as [task|]; [destruct (r h task) as [docs|msg]|]; cbn.
    + exists [Retrieval task]. repeat split; eauto.
    + exists [Retrieval task]. repeat split; eauto; discriminate.
    + exists []. rewrite app_nil_r. repeat split; auto; discriminate.
  - unfold draft_node, get_llm, bind, getitem, call, ret, raise. cbn.
    destruct (getenv w "ANTHROPIC_API_KEY") as [[|c key]|]; cbn;
      try (exists []; rewrite app_nil_r; repeat split; auto; discriminate).
    destruct task as [task|]; cbn;
      try (exists []; rewrite app_nil_r; repeat split; auto; discriminate).
    match goal with |- context [generate w h ?a ?b] =>
      destruct (generate w h a b) as [d|msg]; cbn;
      exists [Generation NDraft a b] end.
    + repeat split; eauto.
    + repeat split; eauto; discriminate.
  - unfold check_node, bind, getitem, ret, raise. cbn.
    destruct draft as [draft|]; cbn.
    + exists [Compliance draft]. repeat split; eauto.
    + exists []. rewrite app_nil_r. repeat split; auto; discriminate.
  - unfold revise_node, get_llm, bind, getitem, call, ret, raise. cbn.
    destruct (getenv w "ANTHROPIC_API_KEY") as [[|c key]|]; cbn;
      try (exists []; rewrite app_nil_r; repeat split; auto; discriminate).
    destruct draft as [draft|]; cbn;
      try (exists []; rewrite app_nil_r; repeat split; auto; discriminate).
    match goal with |- context [generate w h ?a ?b] =>
      destruct (generate w h a b) as [d|msg]; cbn;
      exists [Generation NRevise a b] end.
    + repeat split; eauto.
    + repeat split; eauto; discriminate.
Qed.

Lemma edge_spec (w : World) (r : Retriever) (n : node)
  (s : DocState.t) (h : history) (N k : Z) :
  DocState.max_iters s = Some N -> DocState.i s = Some k ->
  exists t, edge (build_graph w r) n s h = (Ok t, h)
    /\ match n with
       | NRetrieve => t = Goto NDraft
       | NDraft => t = Goto NCheck
       | NRevise => t = Goto NCheck
       | NCheck => t = END \/ (t = Goto NRevise /\ (k < N)%Z)
       end.
Proof.
  intros Hmax Hi. destruct n; cbn [build_graph edge]; try (eexists; split; reflexivity).
  unfold decide_next. rewrite Hmax, Hi. cbn [DocState.get].
  destruct (DocState.get (DocState.issues s) []) as [|x l].
  - exists END. split; [reflexivity | now left].
  - destruct (k >=? N)%Z eqn:E.
    + exists END. split; [reflexivity | now left].
    + exists (Goto NRevise). split; [reflexivity|]. right. split; [reflexivity|]. lia.
Qed.

Lemma event_by_unique (n m : node) (ev : event) :
  event_by n ev = true -> event_by m ev = node_eqb m n.
Proof. destruct ev as [q|c sy hu|t]; try destruct c; destruct n, m; simpl; congruence. Qed.

Lemma calls_by_cons (m : node) (ev : event) (h : history) :
  calls_by m (ev :: h) = ((if event_by m ev then 1 else 0) + calls_by m h)%nat.
Proof. unfold calls_by. simpl. now destruct (event_by m ev). Qed.

Lemma calls_by_app (m : node) (a b : history) :
  calls_by m (a ++ b)%list = (calls_by m a + calls_by m b)%nat.
Proof. unfold calls_by. now rewrite filter_app, length_app. Qed.

Lemma step_spec (w : World) (r : Retriever) (obs : Observer) (n : node)
  (s : DocState.t) (h : history) (N k : Z) :
  quiet obs ->
  DocState.max_iters s = Some N -> DocState.i s = Some k ->
  exists evs,
    snd (step (build_graph w r) obs n s h) = (h ++ evs)%list
    /\ (evs = [] \/ exists ev, evs = [ev] /\ event_by n ev = true)
    /\ match fst (step (build_graph w r) obs n s h) with
       | Ok (t, s') => (exists ev, evs = [ev]) /\ step_ok n N k t s'
       | Raise e => e <> GraphRecursionError
       end.
Proof.
  intros Hq Hmax Hi.
  destruct (node_fn_spec w r n s h k Hi) as [evs [Hh [Hevs Hres]]].
  exists evs. unfold step, bind.
  destruct (node_fn (build_graph w r) n s h) as [[d|e] h1]; simpl in Hh, Hres; subst h1.
  2:{ simpl. auto. }
  destruct Hres as [Hev [Hdmax Hdi]].
  destruct (Hq n d (h ++ evs)%list) as [Hoh Hor].
  destruct (obs n d (h ++ evs)%list) as [[u|e] ho]; simpl in Hoh, Hor; subst ho.
  2:{ simpl. repeat split; auto. congruence. }
  assert (Hmax' : DocState.max_iters (DocState.update s d) = Some N).
  { destruct s, d; simpl in *. now subst. }
  assert (Hi' : DocState.i (DocState.update s d)
                = Some (if node_eqb n NRevise then k + 1 else k)%Z).
  { destruct s, d; simpl in *. subst. now destruct (node_eqb n NRevise). }
  destruct (edge_spec w r n (DocState.update s d) (h ++ evs)%list N
              (if node_eqb n NRevise then k + 1 else k)%Z Hmax' Hi')
    as [t [Ht Htarget]].
  rewrite Ht. simpl. repeat split; auto.
  destruct n; simpl in *; auto.
Qed.

Lemma run_from_spec (w : World) (r : Retriever) (obs : Observer) (N : Z) :
  quiet obs ->
  forall (limit : nat) (n : node) (s : DocState.t) (h : history) (k : Z),
    DocState.max_iters s = Some N -> DocState.i s = Some k ->
    (0 <= k <= N)%Z -> (n = NRevise -> (k < N)%Z) ->
    exists hd,
      snd (run_from (build_graph w r) obs limit n s h) = (h ++ hd)%list
      /\ run_summary n N k limit
           (fst (run_from (build_graph w r) obs limit n s h)) hd.
Proof.
  intros Hq. induction limit as [|limit IH]; intros n s h k Hmax Hi Hk Hrev.
  - exists []. simpl. rewrite app_nil_r. split; [reflexivity|].
    constructor; unfold calls_by; simpl; try lia.
  - cbn [run_from]. unfold bind.
    destruct (step_spec w r obs n s h N k Hq Hmax Hi) as [evs [Hh [Hevs Hres]]].
    destruct (step (build_graph w r) obs n s h) as [[[t s']|e] h1];
      simpl in Hh, Hres; subst h1.
    + destruct Hres as [[ev ->] [Hmax' Hi' Ht]].
      destruct Hevs as [Hevs | [ev' [Hevs Hby]]]; [discriminate|].
      injection Hevs as <-.
      cbn [fst snd]. destruct t as [n'|].
      * destruct (IH n' s' (h ++ [ev])%list _ Hmax' Hi') as [hd [Hh' Hsum]].
        { destruct n; simpl; try lia. specialize (Hrev eq_refl). lia. }
        { intros ->. destruct n; simpl in Ht; try discriminate.
          destruct Ht as [Ht | [_ Ht]]; [discriminate | simpl; lia]. }
        exists (ev :: hd). rewrite Hh', <- app_assoc. split; [reflexivity|].
        destruct Hsum as [S1 S2 S3 S4 S5].
        pose proof (event_by_unique n NRevise ev Hby) as E1.
        pose proof (event_by_unique n NCheck ev Hby) as E2.
        pose proof (event_by_unique n NRetrieve ev Hby) as E3.
        pose proof (event_by_unique n NDraft ev Hby) as E4.
        clear IH Hh'.
        destruct (fst (run_from (build_graph w r) obs limit n' s' (h ++ [ev])%list))
          as [final|e].
        -- destruct S5 as [R1 [R2 [R3 [R4 R5]]]].
           destruct n; simpl in Ht; try (destruct Ht as [Ht | [Ht Hlt]]);
             try discriminate; injection Ht as ->; simpl in *;
             try specialize (Hrev eq_refl);
             (constructor;
              rewrite ?calls_by_cons, ?E1, ?E2, ?E3, ?E4; simpl; try lia;
              repeat split; try lia; try assumption;
              rewrite R5; f_equal; lia).
        -- destruct n; simpl in Ht; try (destruct Ht as [Ht | [Ht Hlt]]);
             try discriminate; injection Ht as ->; simpl in *;
             try specialize (Hrev eq_refl);
             (constructor;
              rewrite ?calls_by_cons, ?E1, ?E2, ?E3, ?E4; simpl; try lia;
              intros He; specialize (S5 He); try lia).
      * exists [ev].
        destruct n; simpl in Ht; try discriminate.
        pose proof (event_by_unique _ NRevise ev Hby) as E1.
        pose proof (event_by_unique _ NCheck ev Hby) as E2.
        pose proof (event_by_unique _ NRetrieve ev Hby) as E3.
        pose proof (event_by_unique _ NDraft ev Hby) as E4.
        simpl in *. clear IH.
        destruct limit as [|limit]; (split; [reflexivity|]);
          constructor; unfold calls_by; simpl; rewrite ?E1, ?E2, ?E3, ?E4; simpl;
          try lia.
        repeat split; try assumption. rewrite Hi'. f_equal; lia.
    + exists evs. split; [reflexivity|]. simpl.
      destruct Hevs as [-> | [ev [-> Hby]]].
      * constructor; unfold calls_by; simpl; try lia. intros; contradiction.
      * pose proof (event_by_unique _ NRevise ev Hby) as E1.
        pose proof (event_by_unique _ NCheck ev Hby) as E2.
        pose proof (event_by_unique _ NRetrieve ev Hby) as E3.
        pose proof (event_by_unique _ NDraft ev Hby) as E4.
        constructor; unfold calls_by; simpl; rewrite ?E1, ?E2, ?E3, ?E4;
          try (intros; contradiction);
          destruct n; simpl; try lia.
        specialize (Hrev eq_refl). lia.
Qed.

Lemma silent_quiet (obs : Observer) : silent obs -> quiet obs.
Proof. intros H n d h. rewrite H. simpl. split; [reflexivity | discriminate]. Qed.

Lemma no_observer_silent : silent no_observer.
Proof. intros n d h. reflexivity. Qed.

Lemma path_map_target (s : DocState.t) (h h' : history) (t : target) :
  path_map (decide_next s) h = (Ok t, h') ->
  (t = END /\ decide_next s = "end") \/ t = Goto NRevise.
Proof.
  unfold decide_next. destruct (DocState.get (DocState.issues s) []).
  - cbn. intros H. injection H as <- _. now left.
  - destruct (_ >=? _)%Z; cbn; intros H; injection H as <- _; [now left | now right].
Qed.

Lemma step_progress (w : World) (r : Retriever) (obs : Observer) (n : node)
  (s : DocState.t) (h : history) (t : target) (s' : DocState.t) (h' : history) :
  (needs_draft n = true -> drafted w s) ->
  step (build_graph w r) obs n s h = (Ok (t, s'), h') ->
  DocState.task s' = DocState.task s /\ drafted_after w n t s'.
Proof.
  intros Hd. unfold step, bind.
  destruct (node_fn (build_graph w r) n s h) as [[d|e] h1] eqn:Hn; [|discriminate].
  destruct (obs n d h1) as [[u|e] h2]; [|discriminate].
  destruct (edge (build_graph w r) n (DocState.update s d) h2) as [[t0|e] h3] eqn:He;
    [|discriminate].
  intros H. injection H as <- <- <-.
  destruct s as [task context draft iss i max final].
  destruct n; cbn [build_graph node_fn edge] in Hn, He; unfold drafted_after.
  - unfold make_retrieve_node, bind, getitem, call, ret, raise in Hn. cbn in Hn.
    destruct task as [task|]; [|discriminate].
    destruct (r h task); [|discriminate]. injection Hn as <- <-.
    injection He as <- _. now cbn.
  - unfold draft_node, get_llm, bind, getitem, call, ret, raise in Hn. cbn in Hn.
    destruct (getenv w "ANTHROPIC_API_KEY") as [[|c key]|]; try discriminate.
    cbn in Hn. destruct task as [task|]; [|discriminate]. cbn in Hn.
    match type of Hn with context [generate w h ?a ?b] =>
      destruct (generate w h a b) as [dr|msg] eqn:Hg end; [|discriminate].
    injection Hn as <- <-. injection He as <- _. cbn.
    split; [reflexivity|]. split; [reflexivity|].
    exists dr. split; [reflexivity|]. now exists h, DRAFT_SYSTEM,
      (DRAFT_PROMPT task (DocState.get context "")).
  - destruct (Hd eq_refl) as [dr [Hdr Hp]]. cbn in Hdr. subst draft.
    unfold check_node, bind, getitem, ret in Hn. cbn in Hn.
    injection Hn as <- <-. apply path_map_target in He.
    cbn. split; [reflexivity|]. split; [|exact He].
    exists dr. now repeat split.
  - destruct (Hd eq_refl) as [dr [Hdr Hp]]. cbn in Hdr. subst draft.
    unfold revise_node, get_llm, bind, getitem, call, ret, raise in Hn. cbn in Hn.
    destruct (getenv w "ANTHROPIC_API_KEY") as [[|c key]|]; try discriminate.
    cbn in Hn.
    match type of Hn with context [generate w h ?a ?b] =>
      destruct (generate w h a b) as [rv|msg] eqn:Hg end; [|discriminate].
    injection Hn as <- <-. injection He as <- _. cbn.
    split; [reflexivity|]. split; [reflexivity|].
    exists rv. split; [reflexivity|]. now exists h, REVISION_SYSTEM,
      (REVISION_PROMPT dr (issues_str (DocState.get iss []))).
Qed.

Lemma drafted_after_next (w : World) (n n' : node) (s' : DocState.t) :
  drafted_after w n (Goto n') s' -> needs_draft n' = true -> drafted w s'.
Proof.
  destruct n; unfold drafted_after.
  - intros H. injection H as ->. discriminate.
  - now intros [_ H] _.
  - intros [[d [H1 [H2 _]]] _] _. now exists d.
  - now intros [_ H] _.
Qed.

Lemma run_from_final (w : World) (r : Retriever) (obs : Observer) :
  forall (limit : nat) (n : node) (s : DocState.t) (h : history)
         (final : DocState.t) (h' : history),
    (needs_draft n = true -> drafted w s) ->
    run_from (build_graph w r) obs limit n s h = (Ok final, h') ->
    DocState.task final = DocState.task s
    /\ checked w final /\ decide_next final = "end".
Proof.
  induction limit as [|limit IH]; intros n s h final h' Hd; [discriminate|].
  cbn [run_from]. unfold bind.
  destruct (step (build_graph w r) obs n s h) as [[[t s']|e] h1] eqn:Hs;
    [|discriminate].
  destruct (step_progress w r obs n s h t s' h1 Hd Hs) as [Htask Hafter].
  cbn [fst snd]. destruct t as [n'|].
  - intros Hrun. apply IH in Hrun.
    + now rewrite <- Htask.
    + now apply (drafted_after_next w n).
  - destruct limit; [discriminate|].
    intros H. injection H as <- <-. split; [exact Htask|].
    destruct n; unfold drafted_after in Hafter.
    + discriminate.
    + destruct Hafter; discriminate.
    + destruct Hafter as [Hc [[_ He] | Ht]]; [now split | discriminate].
    + destruct Hafter; discriminate.
Qed.

Lemma step_total (w : World) (r : Retriever) (obs : Observer) (n : node)
  (s : DocState.t) (h : history) :
  silent obs -> healthy w r ->
  DocState.task s <> None ->
  (needs_draft n = true -> drafted w s) ->
  exists t s' h', step (build_graph w r) obs n s h = (Ok (t, s'), h').
Proof.
  intros Hobs [[c [key Hkey]] [Hr Hg]] Htask Hd. unfold step, bind.
  assert (Hn : exists d h1, node_fn (build_graph w r) n s h = (Ok d, h1)).
  { destruct s as [task context draft iss i max final]. cbn in Htask.
    destruct task as [task|]; [|contradiction].
    destruct n; cbn [build_graph node_fn].
    - unfold make_retrieve_node, bind, getitem, call, ret. cbn.
      destruct (Hr h task) as [docs ->]. eauto.
    - unfold draft_node, get_llm, bind, getitem, call, ret. rewrite Hkey. cbn.
      match goal with |- context [generate w h ?a ?b] =>
        destruct (Hg h a b) as [d ->] end. eauto.
    - destruct (Hd eq_refl) as [dr [Hdr _]]. cbn in Hdr. subst draft.
      unfold check_node, bind, getitem, ret. cbn. eauto.
    - destruct (Hd eq_refl) as [dr [Hdr _]]. cbn in Hdr. subst draft.
      unfold revise_node, get_llm, bind, getitem, call, ret. rewrite Hkey. cbn.
      match goal with |- context [generate w h ?a ?b] =>
        destruct (Hg h a b) as [d ->] end. eauto. }
  destruct Hn as [d [h1 ->]]. rewrite Hobs.
  destruct n; cbn [build_graph edge]; try (do 3 eexists; reflexivity).
  unfold path_map, decide_next.
  destruct (DocState.get (DocState.issues (DocState.update s d)) []);
    [do 3 eexists; reflexivity|].
  destruct (_ >=? _)%Z; do 3 eexists; reflexivity.
Qed.

Lemma run_from_total (w : World) (r : Retriever) (obs : Observer) :
  silent obs -> healthy w r ->
  forall (limit : nat) (n : node) (s : DocState.t) (h : history) (e : exn),
    DocState.task s <> None ->
    (needs_draft n = true -> drafted w s) ->
    fst (run_from (build_graph w r) obs limit n s h) = Raise e ->
    e = GraphRecursionError.
Proof.
  intros Hobs Hw. induction limit as [|limit IH]; intros n s h e Htask Hd.
  - cbn. intros H. now injection H as <-.
  - cbn [run_from]. unfold bind.
    destruct (step_total w r obs n s h Hobs Hw Htask Hd) as [t [s' [h' Hs]]].
    rewrite Hs. cbn [fst snd].
    destruct (step_progress w r obs n s h t s' h' Hd Hs) as [Htask' Hafter].
    destruct t as [n'|];
      [|destruct limit; [cbn; intros H; now injection H as <- | discriminate]].
    apply IH.
    + now rewrite Htask'.
    + now apply (drafted_after_next w n).
Qed.

Lemma reachable_bounded (w : World) (r : Retriever) (task : string) (N : Z) :
  (0 <= N)%Z ->
  forall t s,
    reachable (build_graph w r) (initial_state task N) t s ->
    exists k, DocState.i s = Some k /\ DocState.max_iters s = Some N
              /\ (0 <= k <= N)%Z /\ (t = Goto NRevise -> (k < N)%Z).
Proof.
  intros HN t s H. induction H as [| n s h t s' h' H IH Hs].
  - exists 0%Z. cbn. repeat split; try lia. discriminate.
  - destruct IH as [k [Hi [Hmax [Hk Hrev]]]].
    destruct (step_spec w r no_observer n s h N k
                (silent_quiet _ no_observer_silent) Hmax Hi) as [evs [_ [_ Hres]]].
    rewrite Hs in Hres. cbn in Hres. destruct Hres as [_ [Hmax' Hi' Ht]].
    exists (if node_eqb n NRevise then k + 1 else k)%Z.
    split; [exact Hi'|]. split; [exact Hmax'|].
    destruct n; cbn in *.
    + split; [lia|]. subst t. discriminate.
    + split; [lia|]. subst t. discriminate.
    + split; [lia|]. destruct Ht as [-> | [-> Hlt]]; [discriminate | auto].
    + specialize (Hrev eq_refl). split; [lia|]. subst t. discriminate.
Qed.

Lemma run_from_reachable (app : CompiledGraph) (s0 : DocState.t) :
  forall (limit : nat) (n : node) (s : DocState.t) (h : history)
         (final : DocState.t) (h' : history),
    reachable app s0 (Goto n) s ->
    run_from app no_observer limit n s h = (Ok final, h') ->
    reachable app s0 END final.
Proof.
  induction limit as [|limit IH]; intros n s h final h' Hr; [discriminate|].
  cbn [run_from]. unfold bind.
  destruct (step app no_observer n s h) as [[[t s']|e] h1] eqn:Hs; [|discriminate].
  cbn [fst snd]. pose proof (reach_step app s0 n s h t s' h1 Hr Hs) as Hr'.
  destruct t as [n'|].
  - now apply IH.
  - destruct limit; [discriminate|]. intros H. now injection H as <- <-.
Qed.

Lemma invoke_summary (w : World) (r : Retriever) (task : string) (N : Z) (limit : nat) :
  (0 <= N)%Z ->
  run_summary NRetrieve N 0 limit
    (fst (invoke (build_graph w r) limit (initial_state task N) []))
    (snd (invoke (build_graph w r) limit (initial_state task N) [])).
Proof.
  intros HN. unfold invoke. cbn [build_graph entry_point].
  destruct (run_from_spec w r no_observer N (silent_quiet _ no_observer_silent)
              limit NRetrieve (initial_state task N) [] 0%Z)
    as [hd [Hh Hsum]]; try reflexivity; try lia; try discriminate.
  cbn [app] in Hh. now rewrite Hh.
Qed.

Lemma decide_end_cases (s : DocState.t) :
  decide_next s = "end" ->
  DocState.get (DocState.issues s) [] = []
  \/ (DocState.get (DocState.i s) 0 >= DocState.get (DocState.max_iters s) 2)%Z.
Proof.
  unfold decide_next. destruct (DocState.get (DocState.issues s) []); [now left|].
  destruct (_ >=? _)%Z eqn:E; [right; lia | discriminate].
Qed.

(** C4: after a compliance check the router ends the run when the issue
    list is empty; otherwise it ends the run when the iteration count has
    reached the bound, leaving the issues in the state; otherwise it goes to
    the revise node.  The bound is 2 when the state does not give one, and
    the demo driver starts every run with the bound 2. *)
Theorem router_after_check (w : World) (r : Retriever) (state : DocState.t)
  (h : history) :
  let issues := DocState.get (DocState.issues state) [] in
  let i := DocState.get (DocState.i state) 0%Z in
  let max_iters := DocState.get (DocState.max_iters state) 2%Z in
  (issues = [] ->
   decide_next state = "end"
   /\ edge (build_graph w r) NCheck state h = (Ok END, h))
  /\ (issues <> [] -> (i >= max_iters)%Z ->
      decide_next state = "end"
      /\ edge (build_graph w r) NCheck state h = (Ok END, h))
  /\ (issues <> [] -> (i < max_iters)%Z ->
      decide_next state = "revise"
      /\ edge (build_graph w r) NCheck state h = (Ok (Goto NRevise), h))
  /\ (DocState.max_iters state = None -> max_iters = 2%Z)
  /\ (forall task, DocState.max_iters (initial_state task 2) = Some 2%Z).
Proof.
  cbn zeta. cbn [build_graph edge]. unfold decide_next.
  destruct (DocState.get (DocState.issues state) []) as [|x l].
  - repeat split; try reflexivity; try (intros; contradiction).
    intros ->. reflexivity.
  - split; [discriminate|]. split; [|split; [|split]].
    + intros _ H.
      replace (_ >=? _)%Z with true; [now split|]. symmetry. apply Z.geb_le. lia.
    + intros _ H. replace (_ >=? _)%Z with false; [now split|].
      symmetry. rewrite Z.geb_leb. apply Z.leb_gt. lia.
    + intros ->. reflexivity.
    + reflexivity.
Qed.

Lemma router_after_check_witness :
  decide_next
    (DocState.mk (Some "Write the synopsis.") None (Some "TBD")
       (Some [issue_no_placeholders; issue_min_length]) (Some 2%Z) None None)
  = "end".
Proof.
  destruct (router_after_check sample_world sample_retriever
              (DocState.mk (Some "Write the synopsis.") None (Some "TBD")
                 (Some [issue_no_placeholders; issue_min_length])
                 (Some 2%Z) None None) [])
    as [_ [H _]].
  apply H; [discriminate | cbn; lia].
Defined.

Lemma invoke_no_recursion_error (w : World) (r : Retriever) (task : string)
  (N : Z) (limit : nat) :
  (0 <= N)%Z -> (2 * Z.to_nat N + 4 <= limit)%nat ->
  fst (invoke (build_graph w r) limit (initial_state task N) [])
  <> Raise GraphRecursionError.
Proof.
  intros HN Hl He.
  destruct (invoke_summary w r task N limit HN) as [_ _ _ _ S5].
  rewrite He in S5. specialize (S5 eq_refl).
  rewrite Z.sub_0_r in S5. cbn in S5. lia.
Qed.

Lemma invoke_final (w : World) (r : Retriever) (task : string)
  (N : Z) (limit : nat) (final : DocState.t) :
  fst (invoke (build_graph w r) limit (initial_state task N) []) = Ok final ->
  checked w final /\ decide_next final = "end".
Proof.
  unfold invoke. intros Hf.
  destruct (run_from _ _ _ _ _ _) as [res h'] eqn:Hrun. cbn in Hf. subst res.
  apply run_from_final in Hrun; [tauto | discriminate].
Qed.

Lemma invoke_returns (w : World) (r : Retriever) (task : string)
  (N : Z) (limit : nat) :
  (0 <= N)%Z -> healthy w r -> (2 * Z.to_nat N + 4 <= limit)%nat ->
  exists final,
    fst (invoke (build_graph w r) limit (initial_state task N) []) = Ok final.
Proof.
  intros HN Hw Hl.
  destruct (fst (invoke (build_graph w r) limit (initial_state task N) []))
    as [final|e] eqn:Hf; [now exists final|].
  exfalso. apply (invoke_no_recursion_error w r task N limit HN Hl).
  rewrite Hf. f_equal. unfold invoke in Hf.
  apply (run_from_total w r no_observer no_observer_silent Hw) in Hf;
    [exact Hf | discriminate | discriminate].
Qed.

(** C1: a run with bound [N >= 0] makes at most [N] revision calls and at
    most [N + 1] compliance checks, whatever the collaborators answer and
    whatever the recursion limit; with a limit of at least [2 N + 4], one
    more than the [2 N + 3] steps of the longest run, the run is not cut
    short, and it returns when no collaborator fails.  A run that
    returns has made one check more than revisions and ends with the issues
    of its final draft in the state.  With [N = 0] there is no revision
    call at all: the single check is followed by the end, the iteration
    count is still 0 and the issues found are still in the state. *)
Theorem loop_performs_bounded_work (w : World) (r : Retriever) (task : string)
  (N : Z) (limit : nat) :
  (0 <= N)%Z ->
  let run := invoke (build_graph w r) limit (initial_state task N) [] in
  (revision_calls (snd run) <= Z.to_nat N)%nat
  /\ (compliance_checks (snd run) <= Z.to_nat N + 1)%nat
  /\ ((2 * Z.to_nat N + 4 <= limit)%nat -> fst run <> Raise GraphRecursionError)
  /\ (healthy w r -> (2 * Z.to_nat N + 4 <= limit)%nat ->
      exists final, fst run = Ok final)
  /\ (forall final, fst run = Ok final ->
        compliance_checks (snd run) = (revision_calls (snd run) + 1)%nat
        /\ checked w final /\ decide_next final = "end")
  /\ (N = 0%Z ->
      revision_calls (snd run) = 0%nat
      /\ forall final, fst run = Ok final ->
           compliance_checks (snd run) = 1%nat
           /\ DocState.i final = Some 0%Z
           /\ exists d,
                DocState.draft final = Some d
                /\ DocState.issues final = Some (issues (compliance_check d))
                /\ (ok (compliance_check d) = false ->
                    DocState.get (DocState.issues final) [] <> [])).
Proof.
  intros HN run. pose proof (invoke_summary w r task N limit HN) as Hsum.
  fold run in Hsum. destruct Hsum as [S1 S2 S3 S4 S5].
  rewrite Z.sub_0_r in *. cbn [node_eqb negb b2n orb] in *.
  unfold revision_calls, compliance_checks.
  split; [exact S1|]. split; [exact S2|].
  split; [now apply invoke_no_recursion_error|].
  split; [intros Hw Hl; now apply invoke_returns|].
  split.
  - intros final Hf. rewrite Hf in S5. split; [tauto|].
    now apply (invoke_final w r task N limit).
  - intros ->. cbn in S1. split; [lia|].
    intros final Hf. rewrite Hf in S5. destruct S5 as [_ [_ [R3 [_ R5]]]].
    split; [lia|]. split.
    + rewrite R5. f_equal. lia.
    + destruct (invoke_final w r task 0 limit final Hf) as [[d [Hd [_ Hiss]]] _].
      exists d. split; [exact Hd|]. split; [exact Hiss|].
      intros Hok. rewrite Hiss. cbn [DocState.get]. intros Hnil.
      apply ok_iff_no_issue in Hnil. congruence.
Qed.

Lemma sample_world_healthy : healthy sample_world sample_retriever.
Proof.
  split; [|split].
  - now exists "s"%char, "k-test".
  - intros h q. now exists [sample_document].
  - intros h sy hu. eexists. reflexivity.
Qed.

Lemma sample_world_fails : every_check_fails sample_world.
Proof.
  intros d [h [sy [hu H]]]. cbn in H. unfold placeholder_generator in H.
  injection H as <-.
  destruct (calls_by NDraft h + calls_by NRevise h)%nat as [|[|n]];
    vm_compute; discriminate.
Qed.

Lemma loop_performs_bounded_work_witness :
  (0 <= 0)%Z
  /\ issues (compliance_check "TBD: initial draft") <> []
  /\ snd (invoke (build_graph sample_world sample_retriever) 4
            (initial_state "Write the synopsis." 0) [])
     = [Retrieval "Write the synopsis.";
        Generation NDraft DRAFT_SYSTEM
          (DRAFT_PROMPT "Write the synopsis." (fmt_context [sample_document]));
        Compliance "TBD: initial draft"]
  /\ revision_calls
       (snd (invoke (build_graph sample_world sample_retriever) 4
               (initial_state "Write the synopsis." 0) [])) = 0%nat.
Proof.
  split; [lia|]. split; [vm_compute; discriminate|].
  split; [vm_compute; reflexivity|].
  destruct (loop_performs_bounded_work sample_world sample_retriever
              "Write the synopsis." 0 4) as [_ [_ [_ [_ [_ H]]]]]; [lia|].
  destruct (H eq_refl) as [H0 _]. exact H0.
Defined.

(** C2: with a bound [N >= 0], in every state that a run passes through the
    iteration count is at most the bound.  When no collaborator fails and
    every text of the generator fails the check, the run makes exactly [N]
    revision calls and ends with the iteration count equal to [N]; for
    [N = 2] that is two revision calls and a final count of 2. *)
Theorem iteration_count_never_exceeds_bound (w : World) (r : Retriever)
  (task : string) (N : Z) :
  (0 <= N)%Z ->
  (forall t s,
      reachable (build_graph w r) (initial_state task N) t s ->
      exists k, DocState.i s = Some k /\ DocState.max_iters s = Some N
                /\ (0 <= k <= N)%Z)
  /\ (healthy w r -> every_check_fails w ->
      forall limit, (2 * Z.to_nat N + 4 <= limit)%nat ->
      exists final h,
        invoke (build_graph w r) limit (initial_state task N) [] = (Ok final, h)
        /\ reachable (build_graph w r) (initial_state task N) END final
        /\ revision_calls h = Z.to_nat N
        /\ compliance_checks h = (Z.to_nat N + 1)%nat
        /\ DocState.i final = Some N).
Proof.
  intros HN. split.
  - intros t s H. destruct (reachable_bounded w r task N HN t s H)
      as [k [Hi [Hmax [Hk _]]]]. now exists k.
  - intros Hw Hfail limit Hl.
    destruct (invoke_returns w r task N limit HN Hw Hl) as [final Hf].
    destruct (invoke_final w r task N limit final Hf)
      as [[d [Hd [Hp Hiss]]] Hend].
    pose proof (invoke_summary w r task N limit HN) as Hsum.
    destruct (invoke (build_graph w r) limit (initial_state task N) [])
      as [res h] eqn:Hrun.
    cbn [fst snd] in *. subst res. exists final, h.
    destruct Hsum as [S1 _ _ _ [_ [_ [R3 [Rmax Ri]]]]].
    cbn [node_eqb negb b2n] in *. rewrite Z.sub_0_r in S1.
    assert (Hrev : calls_by NRevise h = Z.to_nat N).
    { apply decide_end_cases in Hend. rewrite Hiss, Rmax, Ri in Hend.
      cbn [DocState.get] in Hend. destruct Hend as [Hnil | Hge].
      - exfalso. now apply (Hfail d Hp).
      - lia. }
    split; [reflexivity|]. split.
    { unfold invoke in Hrun. eapply run_from_reachable; [|exact Hrun].
      apply reach_start. }
    unfold revision_calls, compliance_checks.
    rewrite R3, Hrev. repeat split; try lia.
    rewrite Ri, Hrev. f_equal. lia.
Qed.

Lemma iteration_count_never_exceeds_bound_witness :
  (0 <= 2)%Z
  /\ healthy sample_world sample_retriever
  /\ every_check_fails sample_world
  /\ exists final h,
       invoke (build_graph sample_world sample_retriever) recursion_limit
         (initial_state "Write the synopsis." 2) [] = (Ok final, h)
       /\ revision_calls h = 2%nat
       /\ DocState.i final = Some 2%Z
       /\ DocState.draft final = Some "TBD: second revision".
Proof.
  split; [lia|]. split; [apply sample_world_healthy|].
  split; [apply sample_world_fails|].
  destruct (iteration_count_never_exceeds_bound sample_world sample_retriever
              "Write the synopsis." 2) as [_ H]; [lia|].
  destruct (H sample_world_healthy sample_world_fails recursion_limit)
    as [final [h [Hrun [_ [Hrev [_ Hi]]]]]]; [vm_compute; lia|].
  exists final, h. repeat split; try assumption.
  assert (E : fst (invoke (build_graph sample_world sample_retriever)
                     recursion_limit (initial_state "Write the synopsis." 2) [])
              = Ok final) by now rewrite Hrun.
  vm_compute in E. injection E as <-. reflexivity.
Defined.

(** ** The credential of the text generator *)

Lemma run_from_step (app : CompiledGraph) (obs : Observer) (limit : nat)
  (n : node) (s : DocState.t) (h : history) :
  run_from app obs (S limit) n s h =
  match step app obs n s h with
  | (Ok (Goto n', s'), h') => run_from app obs limit n' s' h'
  | (Ok (END, s'), h') =>
      match limit with
      | O => (Raise GraphRecursionError, h')
      | S _ => (Ok s', h')
      end
  | (Raise e, h') => (Raise e, h')
  end.
Proof.
  cbn [run_from]. unfold bind.
  destruct (step app obs n s h) as [[[[n'|] s']|e] h']; try reflexivity.
  now destruct limit.
Qed.

Lemma step_node_raises (app : CompiledGraph) (obs : Observer) (n : node)
  (s : DocState.t) (h h' : history) (e : exn) :
  node_fn app n s h = (Raise e, h') -> step app obs n s h = (Raise e, h').
Proof. intros H. unfold step, bind. now rewrite H. Qed.

Lemma step_observer_raises (app : CompiledGraph) (obs : Observer) (n : node)
  (s d : DocState.t) (h h' h'' : history) (e : exn) :
  node_fn app n s h = (Ok d, h') -> obs n d h' = (Raise e, h'') ->
  step app obs n s h = (Raise e, h'').
Proof. intros H Ho. unfold step, bind. now rewrite H, Ho. Qed.

Lemma step_retrieve (w : World) (r : Retriever) (obs : Observer)
  (s : DocState.t) (h : history) (task : string) (docs : list Document) :
  silent obs ->
  DocState.task s = Some task -> r h task = Returns docs ->
  step (build_graph w r) obs NRetrieve s h
  = (Ok (Goto NDraft,
         DocState.update s
           (DocState.mk None (Some (fmt_context docs)) None None None None None)),
     (h ++ [Retrieval task])%list).
Proof.
  intros Hobs Ht Hr. unfold step, bind. cbn [build_graph node_fn edge].
  unfold make_retrieve_node, bind, getitem, call, ret. rewrite Ht, Hr, Hobs.
  reflexivity.
Qed.

Lemma retrieve_node_returns (r : Retriever) (s : DocState.t) (h : history)
  (task : string) (docs : list Document) :
  DocState.task s = Some task -> r h task = Returns docs ->
  make_retrieve_node r s h
  = (Ok (DocState.mk None (Some (fmt_context docs)) None None None None None),
     (h ++ [Retrieval task])%list).
Proof.
  intros Ht Hr. unfold make_retrieve_node, bind, getitem, call, ret.
  now rewrite Ht, Hr.
Qed.

Lemma get_llm_missing (w : World) (h : history) :
  key_missing w -> get_llm w h = (Raise (RuntimeError API_KEY_MESSAGE), h).
Proof. unfold get_llm. intros [-> | ->]; reflexivity. Qed.

Lemma draft_node_missing (w : World) (s : DocState.t) (h : history) :
  key_missing w -> draft_node w s h = (Raise (RuntimeError API_KEY_MESSAGE), h).
Proof. intros H. unfold draft_node, bind. now rewrite get_llm_missing. Qed.

Lemma revise_node_missing (w : World) (s : DocState.t) (h : history) :
  key_missing w -> revise_node w s h = (Raise (RuntimeError API_KEY_MESSAGE), h).
Proof. intros H. unfold revise_node, bind. now rewrite get_llm_missing. Qed.

Lemma invoke_missing (w : World) (r : Retriever) (task : string) (N : Z)
  (limit : nat) (docs : list Document) :
  key_missing w -> (2 <= limit)%nat -> r [] task = Returns docs ->
  invoke (build_graph w r) limit (initial_state task N) []
  = (Raise (RuntimeError API_KEY_MESSAGE), [Retrieval task]).
Proof.
  intros Hkey Hl Hr. destruct limit as [|[|limit]]; try lia.
  unfold invoke. cbn [build_graph entry_point].
  change (mkGraph _ _ _) with (build_graph w r).
  rewrite run_from_step.
  rewrite (step_retrieve w r no_observer (initial_state task N) [] task docs
             no_observer_silent eq_refl Hr).
  rewrite run_from_step.
  rewrite (step_node_raises _ _ NDraft _ _ ([] ++ [Retrieval task])%list
             (RuntimeError API_KEY_MESSAGE)); [reflexivity|].
  cbn [build_graph node_fn]. now apply draft_node_missing.
Qed.

(** C9: when the variable ANTHROPIC_API_KEY is absent (or empty), obtaining
    the generator raises [RuntimeError] with the fixed message, before any
    generation call: the draft and revise nodes raise it without calling
    the generator, a run of the graph stops there with the retrieval as its
    only call, and the driver exits with status 1 and the message.  A
    failure of the generation call itself is a different exception, raised
    after the call has been made. *)
Theorem missing_credential_is_fatal (w : World) :
  key_missing w ->
  (forall h, get_llm w h = (Raise (RuntimeError API_KEY_MESSAGE), h))
  /\ (forall s h, draft_node w s h = (Raise (RuntimeError API_KEY_MESSAGE), h))
  /\ (forall s h, revise_node w s h = (Raise (RuntimeError API_KEY_MESSAGE), h))
  /\ (forall r task N limit docs,
        (2 <= limit)%nat -> r [] task = Returns docs ->
        invoke (build_graph w r) limit (initial_state task N) []
        = (Raise (RuntimeError API_KEY_MESSAGE), [Retrieval task]))
  /\ (forall persist task events r docs,
        vectorstore w persist = Returns r ->
        r [] (task_or_default task) = Returns docs ->
        main_run w persist task false events []
        = ((1%Z, ["Error: Please set ANTHROPIC_API_KEY environment variable."]),
           [Retrieval (task_or_default task)]))
  /\ (forall w' s h task msg,
        key_present w' -> DocState.task s = Some task ->
        generate w' h DRAFT_SYSTEM
          (DRAFT_PROMPT task (DocState.get (DocState.context s) "")) = Fails msg ->
        draft_node w' s h
        = (Raise (CollaboratorError msg),
           (h ++ [Generation NDraft DRAFT_SYSTEM
                   (DRAFT_PROMPT task (DocState.get (DocState.context s) ""))])%list)
        /\ CollaboratorError msg <> RuntimeError API_KEY_MESSAGE).
Proof.
  intros Hkey.
  split; [intros h; now apply get_llm_missing|].
  split; [intros s h; now apply draft_node_missing|].
  split; [intros s h; now apply revise_node_missing|].
  split; [intros r task N limit docs Hl Hr; now apply (invoke_missing w r task N limit docs)|].
  split.
  - intros persist task events r docs Hvs Hr.
    unfold main_run, run_demo, load_vectorstore, bind. rewrite Hvs.
    unfold ret at 1.
    rewrite (invoke_missing w r (task_or_default task) 2 recursion_limit docs Hkey);
      [reflexivity | unfold recursion_limit; lia | exact Hr].
  - intros w' s h task msg [c [key Hk]] Ht Hg. split; [|discriminate].
    unfold draft_node, get_llm, bind, getitem, call. rewrite Hk, Ht.
    unfold ret. cbn zeta. now rewrite Hg.
Qed.

Lemma missing_credential_is_fatal_witness :
  key_missing keyless_world
  /\ main_run keyless_world "./chroma" (Some "Write the synopsis.") false None []
     = ((1%Z, ["Error: Please set ANTHROPIC_API_KEY environment variable."]),
        [Retrieval "Write the synopsis."]).
Proof.
  assert (Hkey : key_missing keyless_world) by (left; reflexivity).
  split; [exact Hkey|].
  destruct (missing_credential_is_fatal keyless_world Hkey)
    as [_ [_ [_ [_ [H _]]]]].
  apply (H "./chroma" (Some "Write the synopsis.") None sample_retriever
           [sample_document]); reflexivity.
Defined.

(** ** The demo driver and the observer *)

(** A run from the entry point with a silent observer and healthy
    collaborators returns, after one retrieval and one drafting call. *)
Lemma graph_run_returns (w : World) (r : Retriever) (obs : Observer)
  (task : string) (N : Z) (limit : nat) (h : history) :
  silent obs -> healthy w r -> (0 <= N)%Z -> (2 * Z.to_nat N + 4 <= limit)%nat ->
  exists final hd,
    run_from (build_graph w r) obs limit NRetrieve (initial_state task N) h
    = (Ok final, (h ++ hd)%list)
    /\ calls_by NRetrieve hd = 1%nat /\ calls_by NDraft hd = 1%nat.
Proof.
  intros Hobs Hw HN Hl.
  destruct (run_from_spec w r obs N (silent_quiet obs Hobs) limit NRetrieve
              (initial_state task N) h 0%Z) as [hd [Hh Hsum]];
    try reflexivity; try lia; try discriminate.
  destruct (run_from (build_graph w r) obs limit NRetrieve (initial_state task N) h)
    as [[final|e] h'] eqn:Hrun; cbn [fst snd] in *; subst h'.
  - exists final, hd. destruct Hsum as [_ _ _ _ [R1 [R2 _]]]. now repeat split.
  - exfalso. destruct Hsum as [_ _ _ _ S5].
    assert (He : e = GraphRecursionError).
    { apply (run_from_total w r obs Hobs Hw limit NRetrieve
               (initial_state task N) h e); try discriminate.
      now rewrite Hrun. }
    specialize (S5 He). rewrite Z.sub_0_r in S5. cbn in S5. lia.
Qed.

Lemma on_event_unbound_dt (events_path : option string) (n : node)
  (d : DocState.t) (h : history) :
  on_event module_globals events_path n d h = (Raise (NameError "dt"), h).
Proof. reflexivity. Qed.

Lemma on_event_silent (globals : list string) (events_path : option string) :
  existsb (String.eqb "dt") globals = true ->
  silent (on_event globals events_path).
Proof.
  intros Hdt n d h. unfold on_event, bind, global_name. rewrite Hdt.
  unfold ret at 1. destruct (events_file events_path) as [path|]; [|reflexivity].
  unfold try_pass. destruct (existsb (String.eqb "json") globals); reflexivity.
Qed.

Lemma open_events_ok (w : World) (events_path : option string) (h : history) :
  events_can_open w events_path -> open_events w events_path h = (Ok tt, h).
Proof.
  unfold events_can_open, open_events.
  destruct (events_file events_path) as [path|]; [|reflexivity].
  intros [u Hu]. rewrite Hu. now destruct u.
Qed.

Lemma stream_run_unbound_dt (w : World) (r : Retriever) (limit : nat)
  (s : DocState.t) (events_path : option string) (h : history)
  (task : string) (docs : list Document) :
  events_can_open w events_path ->
  DocState.task s = Some task -> r h task = Returns docs ->
  stream_run module_globals w (build_graph w r) (S limit) s events_path h
  = (Raise (NameError "dt"), (h ++ [Retrieval task])%list).
Proof.
  intros Hopen Ht Hr. unfold stream_run. unfold bind at 1 2.
  rewrite open_events_ok by assumption.
  cbn [build_graph entry_point]. change (mkGraph _ _ _) with (build_graph w r).
  rewrite run_from_step.
  rewrite (step_observer_raises (build_graph w r) _ NRetrieve _ _ h _ _ _
             (retrieve_node_returns r s h task docs Ht Hr)
             (on_event_unbound_dt events_path _ _ _)).
  reflexivity.
Qed.

Lemma stream_run_open_fails (globals : list string) (w : World)
  (app : CompiledGraph) (limit : nat) (s : DocState.t) (path msg : string)
  (h : history) :
  path <> "" -> open_append w path = Fails msg ->
  stream_run globals w app limit s (Some path) h
  = (Raise (CollaboratorError msg), h).
Proof.
  intros Hne Hf. unfold stream_run. unfold bind at 1 2. unfold open_events.
  destruct path as [|c path]; [contradiction|]. cbn [events_file].
  now rewrite Hf.
Qed.

(** C3: the run with the observer attached differs from the run without.
    With [stream] set and no events path (or the empty one), or an events
    file that can be opened, the loop body of [stream_run] reads the
    unbound name [dt] after the first event: [run_demo] raises [NameError]
    after the retrieval call and makes no drafting call.  With an events
    file that cannot be opened it raises before any call.  The same run without [stream] returns after exactly
    one retrieval and one drafting call. *)
Theorem stream_flag_changes_the_run (w : World) (persist : string)
  (task events : option string) (r : Retriever) (docs : list Document) :
  vectorstore w persist = Returns r ->
  r [] (task_or_default task) = Returns docs ->
  (events_can_open w events ->
   run_demo module_globals w persist task true events []
   = (Raise (NameError "dt"), [Retrieval (task_or_default task)]))
  /\ (forall path msg,
        events = Some path -> path <> "" -> open_append w path = Fails msg ->
        run_demo module_globals w persist task true events []
        = (Raise (CollaboratorError msg), []))
  /\ drafting_calls [Retrieval (task_or_default task)] = 0%nat
  /\ (healthy w r ->
      exists text h,
        run_demo module_globals w persist task false events [] = (Ok text, h)
        /\ retrieval_calls h = 1%nat /\ drafting_calls h = 1%nat).
Proof.
  intros Hvs Hr. split; [|split; [|split; [reflexivity|]]].
  - intros Hopen. unfold run_demo, load_vectorstore. unfold bind at 1.
    rewrite Hvs. unfold bind at 1. unfold recursion_limit.
    rewrite (stream_run_unbound_dt w r _ (initial_state (task_or_default task) 2)
               events [] (task_or_default task) docs Hopen eq_refl Hr).
    reflexivity.
  - intros path msg -> Hne Hf. unfold run_demo, load_vectorstore.
    unfold bind at 1. rewrite Hvs. unfold bind at 1.
    now rewrite (stream_run_open_fails _ w _ _ _ path msg [] Hne Hf).
  - intros Hw. unfold run_demo, load_vectorstore, bind. rewrite Hvs.
    unfold ret at 1. unfold invoke. cbn [build_graph entry_point].
    change (mkGraph _ _ _) with (build_graph w r).
    destruct (graph_run_returns w r no_observer (task_or_default task) 2
                recursion_limit [] no_observer_silent Hw)
      as [final [hd [Hrun [H1 H2]]]]; [lia | vm_compute; lia|].
    rewrite Hrun. eexists. exists hd. split; [reflexivity|]. now split.
Qed.

Lemma stream_flag_changes_the_run_witness :
  vectorstore sample_world "./chroma" = Returns sample_retriever
  /\ sample_retriever [] (task_or_default None) = Returns [sample_document]
  /\ events_can_open sample_world (Some "events.jsonl")
  /\ run_demo module_globals sample_world "./chroma" None true
       (Some "events.jsonl") []
     = (Raise (NameError "dt"), [Retrieval DEFAULT_TASK]).
Proof.
  assert (Hopen : events_can_open sample_world (Some "events.jsonl"))
    by (now exists tt).
  split; [reflexivity|]. split; [reflexivity|]. split; [exact Hopen|].
  destruct (stream_flag_changes_the_run sample_world "./chroma" None
              (Some "events.jsonl") sample_retriever [sample_document]
              eq_refl eq_refl) as [H _].
  exact (H Hopen).
Defined.

(** Were [dt] bound in the module, the streamed run would complete, and
    [run_demo] would then start the graph a second time with [app.invoke]:
    every collaborator call of a run is made twice. *)
Lemma stream_run_then_invoke_repeats_the_graph (globals : list string)
  (w : World) (persist : string) (task events : option string) (r : Retriever) :
  existsb (String.eqb "dt") globals = true ->
  events_can_open w events ->
  vectorstore w persist = Returns r -> healthy w r ->
  exists text h,
    run_demo globals w persist task true events [] = (Ok text, h)
    /\ retrieval_calls h = 2%nat /\ drafting_calls h = 2%nat.
Proof.
  intros Hdt Hopen Hvs Hw. unfold run_demo, load_vectorstore. unfold bind at 1.
  rewrite Hvs. unfold stream_run, invoke. unfold bind at 1 2 3.
  rewrite open_events_ok by assumption.
  cbn [build_graph entry_point]. change (mkGraph _ _ _) with (build_graph w r).
  destruct (graph_run_returns w r (on_event globals events) (task_or_default task)
              2 recursion_limit [] (on_event_silent globals events Hdt) Hw)
    as [final1 [h1 [Hrun1 [A1 A2]]]]; [lia | vm_compute; lia|].
  rewrite Hrun1. unfold ret at 1. unfold bind.
  destruct (graph_run_returns w r no_observer (task_or_default task) 2
              recursion_limit ([] ++ h1)%list no_observer_silent Hw)
    as [final2 [h2 [Hrun2 [B1 B2]]]]; [lia | vm_compute; lia|].
  rewrite Hrun2. eexists. eexists. split; [reflexivity|].
  unfold retrieval_calls, drafting_calls.
  rewrite !calls_by_app. cbn [app]. rewrite A1, A2, B1, B2. now split.
Qed.

Lemma slice_to_length (n : nat) (s : string) :
  (String.length (PyStr.slice_to n s) <= n)%nat.
Proof.
  revert s. induction n as [|n IH]; intros [|c s]; simpl; try lia.
  specialize (IH s). lia.
Qed.

Lemma slice_to_short (n : nat) (s : string) :
  (String.length s <= n)%nat -> PyStr.slice_to n s = s.
Proof.
  revert s. induction n as [|n IH]; intros [|c s]; simpl; try reflexivity; try lia.
  intros H. rewrite IH; [reflexivity | lia].
Qed.








(** C8: every formatted entry ends with the ellipsis marker, also when the
    snippet is shorter than the preview length and nothing was cut: the
    snippet "Short note" is kept whole and still gets the marker. *)
Theorem ellipsis_on_every_entry :
  (forall i d, exists body,
      fmt_line i d = body ++ "..."
      /\ body = "- [" ++ PyStr.str_of_nat i ++ "] ("
                ++ PyStr.basename (dict_get (metadata d) "source" "doc") ++ ") "
                ++ PyStr.replace_char (ascii_of_nat 10) " "%char
                     (PyStr.slice_to preview_length (page_content d)))
  /\ PyStr.slice_to preview_length "Short note" = "Short note"
  /\ fmt_context [mkDocument "Short note" [("source", "/data/pdfs/a.pdf")]]
     = "- [1] (a.pdf) Short note...".
Proof.
  split; [|split; reflexivity].
  intros i d. eexists. split; [|reflexivity].
  unfold fmt_line. now rewrite !append_assoc.
Qed.

(** ** More on words and letter case *)

Lemma split_from_sep (a rest cur : string) (c : ascii) :
  PyStr.isspace c = true ->
  PyStr.split_from cur (a ++ String c rest)
  = (PyStr.split_from cur a ++ PyStr.split_from "" rest)%list.
Proof.
  intros Hc. revert cur. induction a as [|x a IH]; intros cur.
  - cbn [append PyStr.split_from]. rewrite Hc. now destruct cur.
  - cbn [append PyStr.split_from]. destruct (PyStr.isspace x).
    + destruct cur; [apply IH | cbn [app]; now rewrite IH].
    + apply IH.
Qed.

(** X1: the words of two texts joined by whitespace are the words of the
    first followed by the words of the second; the word count that
    [compliance_check] takes is additive over such a join. *)
Theorem split_app_blank (a sep b : string) :
  is_blank sep -> sep <> "" ->
  PyStr.split (a ++ sep ++ b) = (PyStr.split a ++ PyStr.split b)%list.
Proof.
  intros Hsep Hne. destruct sep as [|c sep]; [contradiction|].
  unfold is_blank in Hsep. cbn in Hsep. apply andb_true_iff in Hsep as [Hc Hsep].
  unfold PyStr.split. cbn [append].
  rewrite (split_from_sep a (sep ++ b) "" c Hc).
  now rewrite split_from_blank.
Qed.

Lemma split_app_blank_witness :
  is_blank " " /\ " " <> ""
  /\ PyStr.split ("Informed" ++ " " ++ "consent")
     = (PyStr.split "Informed" ++ PyStr.split "consent")%list.
Proof.
  split; [reflexivity|]. split; [discriminate|].
  apply (split_app_blank "Informed" " " "consent"); [reflexivity | discriminate].
Defined.

Lemma split_from_cur_nonempty (cur s : string) :
  cur <> "" -> (1 <= List.length (PyStr.split_from cur s))%nat.
Proof.
  revert cur. induction s as [|c s IH]; intros cur Hne.
  - destruct cur; [contradiction | cbn; lia].
  - cbn [PyStr.split_from]. destruct (PyStr.isspace c).
    + destruct cur; [contradiction | cbn; lia].
    + apply IH. now destruct cur.
Qed.

Lemma split_from_app_le (a b cur : string) :
  (List.length (PyStr.split_from cur a)
   <= List.length (PyStr.split_from cur (a ++ b)))%nat.
Proof.
  revert cur. induction a as [|x a IH]; intros cur.
  - cbn [append]. destruct cur as [|y cur]; [cbn; lia|].
    cbn [PyStr.split_from List.length]. now apply split_from_cur_nonempty.
  - cbn [append PyStr.split_from]. destruct (PyStr.isspace x).
    + destruct cur; [apply IH | cbn [List.length]; specialize (IH ""); lia].
    + apply IH.
Qed.

(** X2: appending anything to a text never lowers its word count: a text
    that does not get the [min_length] issue does not get it after any
    text is appended. *)
Theorem appending_keeps_min_length (text more : string) :
  cond_min_length text = false ->
  cond_min_length (text ++ more) = false
  /\ ~ In issue_min_length (issues (compliance_check (text ++ more))).
Proof.
  unfold cond_min_length. intros H. apply Nat.ltb_ge in H.
  assert (H' : (List.length (PyStr.split (text ++ more)) <? 150)%nat = false).
  { apply Nat.ltb_ge. pose proof (split_from_app_le text more "") as Hle.
    unfold PyStr.split in *. lia. }
  split; [exact H'|].
  intros Hin. apply issue_reported_iff in Hin.
  destruct Hin as [[E _] | [[E _] | [[E _] | [_ HF]]]]; try discriminate.
  apply cond_min_length_iff in HF. unfold cond_min_length in HF. congruence.
Qed.

Lemma appending_keeps_min_length_witness :
  cond_min_length text_150_words = false
  /\ cond_min_length (text_150_words ++ "and more") = false.
Proof.
  assert (H : cond_min_length text_150_words = false) by (vm_compute; reflexivity).
  split; [exact H|].
  destruct (appending_keeps_min_length text_150_words "and more" H) as [H' _].
  exact H'.
Defined.

Lemma split_from_word_end (w : string) :
  w <> "" -> PyStr.split_from w "" = [w].
Proof. now destruct w. Qed.

(** X3: splitting the join of whitespace-free, non-empty words by a
    whitespace separator gives the words back. *)
Theorem split_join_words (sep : string) (ws : list string) :
  is_blank sep -> sep <> "" -> Forall is_word ws ->
  PyStr.split (PyStr.join sep ws) = ws.
Proof.
  intros Hsep Hne Hws. induction Hws as [|w ws [Hw1 Hw2] Hws IH].
  - reflexivity.
  - destruct ws as [|w' ws].
    + cbn [PyStr.join]. unfold PyStr.split.
      rewrite <- (append_nil_r w) at 1. rewrite split_from_word by assumption.
      now apply split_from_word_end.
    + change (PyStr.join sep (w :: w' :: ws))
        with (w ++ sep ++ PyStr.join sep (w' :: ws)).
      rewrite split_app_blank by assumption. rewrite IH.
      unfold PyStr.split. rewrite <- (append_nil_r w) at 1.
      rewrite split_from_word by assumption. cbn [append].
      now rewrite split_from_word_end.
Qed.

Lemma split_join_words_witness :
  Forall is_word ["informed"; "consent"; "form"]
  /\ PyStr.split (PyStr.join " " ["informed"; "consent"; "form"])
     = ["informed"; "consent"; "form"].
Proof.
  assert (H : Forall is_word ["informed"; "consent"; "form"]).
  { repeat constructor; discriminate. }
  split; [exact H|].
  apply (split_join_words " " _); [reflexivity | discriminate | exact H].
Defined.

Lemma split_from_length_bound (s cur : string) :
  (2 * List.length (PyStr.split_from cur s)
   <= String.length s + match cur with EmptyString => 1 | _ => 2 end)%nat.
Proof.
  revert cur. induction s as [|c s IH]; intros cur.
  - destruct cur; cbn; lia.
  - cbn [PyStr.split_from String.length]. destruct (PyStr.isspace c).
    + specialize (IH ""). destruct cur; simpl in *; lia.
    + specialize (IH (cur ++ String c "")).
      destruct cur; simpl in *; lia.
Qed.

(** X4: a text of fewer than 299 characters has fewer than 150 words: it
    always gets the [min_length] issue and [ok] is false. *)
Theorem short_string_fails (text : string) :
  (String.length text < 299)%nat ->
  In issue_min_length (issues (compliance_check text))
  /\ ok (compliance_check text) = false.
Proof.
  intros H.
  assert (Hin : In issue_min_length (issues (compliance_check text))).
  { apply issue_reported_iff. unfold Fires. do 3 right. split; [reflexivity|].
    apply cond_min_length_iff. unfold cond_min_length. apply Nat.ltb_lt.
    pose proof (split_from_length_bound text "") as Hb. cbv iota in Hb.
    unfold PyStr.split. lia. }
  split; [exact Hin|].
  destruct (ok (compliance_check text)) eqn:E; [|reflexivity].
  apply ok_iff_no_issue in E. rewrite E in Hin. contradiction.
Qed.

Lemma short_string_fails_witness :
  (String.length "The trial enrols adults." < 299)%nat
  /\ ok (compliance_check "The trial enrols adults.") = false.
Proof.
  assert (H : (String.length "The trial enrols adults." < 299)%nat)
    by (vm_compute; lia).
  split; [exact H|].
  destruct (short_string_fails "The trial enrols adults." H) as [_ H'].
  exact H'.
Defined.

Lemma lower_char_idempotent (c : ascii) :
  PyStr.lower_char (PyStr.lower_char c) = PyStr.lower_char c.
Proof. destruct c as [[] [] [] [] [] [] [] []]; reflexivity. Qed.

Lemma isspace_lower_char (c : ascii) :
  PyStr.isspace (PyStr.lower_char c) = PyStr.isspace c.
Proof. destruct c as [[] [] [] [] [] [] [] []]; reflexivity. Qed.

Lemma lower_idempotent (s : string) : PyStr.lower (PyStr.lower s) = PyStr.lower s.
Proof.
  induction s as [|c s IH]; simpl; [reflexivity|].
  now rewrite lower_char_idempotent, IH.
Qed.

Lemma split_from_lower (s cur : string) :
  PyStr.split_from (PyStr.lower cur) (PyStr.lower s)
  = map PyStr.lower (PyStr.split_from cur s).
Proof.
  revert cur. induction s as [|c s IH]; intros cur.
  - now destruct cur.
  - cbn [PyStr.lower PyStr.split_from]. rewrite isspace_lower_char.
    destruct (PyStr.isspace c).
    + destruct cur as [|x cur]; [apply (IH "")|].
      cbn [PyStr.lower map]. f_equal. apply (IH "").
    + rewrite <- IH. now rewrite lower_app.
Qed.

Lemma word_count_lower (s : string) :
  List.length (PyStr.split (PyStr.lower s)) = List.length (PyStr.split s).
Proof.
  unfold PyStr.split. change "" with (PyStr.lower "") at 1.
  now rewrite split_from_lower, length_map.
Qed.

(** X5: two texts that differ only in the case of letters get the same
    verdict from the [risk_mitigation], [consent_withdrawal] and
    [min_length] rules; the whole result is the same when they also agree
    on containing the literal TBD, the only case-sensitive test. *)
Theorem letter_case_only_matters_for_TBD (t1 t2 : string) :
  PyStr.lower t1 = PyStr.lower t2 ->
  cond_risk_mitigation t1 = cond_risk_mitigation t2
  /\ cond_consent_withdrawal t1 = cond_consent_withdrawal t2
  /\ cond_min_length t1 = cond_min_length t2
  /\ (PyStr.contains "TBD" t1 = PyStr.contains "TBD" t2 ->
      compliance_check t1 = compliance_check t2).
Proof.
  intros H.
  assert (H2 : cond_risk_mitigation t1 = cond_risk_mitigation t2)
    by (unfold cond_risk_mitigation; now rewrite H).
  assert (H3 : cond_consent_withdrawal t1 = cond_consent_withdrawal t2)
    by (unfold cond_consent_withdrawal; now rewrite H).
  assert (H4 : cond_min_length t1 = cond_min_length t2).
  { unfold cond_min_length.
    now rewrite <- (word_count_lower t1), <- (word_count_lower t2), H. }
  repeat split; try assumption.
  intros Htbd. unfold compliance_check.
  replace (cond_no_placeholders t1) with (cond_no_placeholders t2)
    by (unfold cond_no_placeholders; now rewrite H, Htbd).
  now rewrite H2, H3, H4.
Qed.

Lemma letter_case_only_matters_for_TBD_witness :
  PyStr.lower "Risk and CONSENT" = PyStr.lower "risk and consent"
  /\ compliance_check "Risk and CONSENT" = compliance_check "risk and consent".
Proof.
  split; [reflexivity|].
  destruct (letter_case_only_matters_for_TBD "Risk and CONSENT" "risk and consent"
              eq_refl) as [_ [_ [_ H]]].
  apply H. reflexivity.
Defined.

(** X6: the checker never reports a rule twice and never more than four
    issues. *)
Theorem issues_never_repeat (text : string) :
  NoDup (map rule (issues (compliance_check text)))
  /\ (List.length (issues (compliance_check text)) <= 4)%nat.
Proof.
  rewrite compliance_check_by_table.
  unfold check_by_table, rule_table. cbn [issues filter map fst snd].
  destruct (cond_no_placeholders text), (cond_risk_mitigation text),
    (cond_consent_withdrawal text), (cond_min_length text);
    cbn [map snd rule List.length issue_no_placeholders issue_risk_mitigation
           issue_consent_withdrawal issue_min_length];
    (split; [|lia]);
    repeat (constructor; [cbn [In]; intuition discriminate|]); constructor.
Qed.

(** ** More on the context formatter *)

Lemma digit_value (d : nat) :
  (d < 10)%nat -> (nat_of_ascii (PyStr.digit d) - 48 = d)%nat
                  /\ is_digit (PyStr.digit d) = true.
Proof.
  intros H. unfold PyStr.digit, is_digit.
  do 10 (destruct d as [|d]; [split; reflexivity|]). lia.
Qed.

Lemma str_of_nat_fuel_value (fuel n : nat) (acc : string) :
  (n < fuel)%nat ->
  int_of_digits 0 (PyStr.str_of_nat_fuel fuel n acc) = int_of_digits n acc
  /\ (all_chars is_digit acc = true ->
      all_chars is_digit (PyStr.str_of_nat_fuel fuel n acc) = true)
  /\ PyStr.str_of_nat_fuel fuel n acc <> "".
Proof.
  revert n acc. induction fuel as [|fuel IH]; intros n acc Hn; [lia|].
  cbn [PyStr.str_of_nat_fuel].
  pose proof (Nat.mod_upper_bound n 10 ltac:(lia)) as Hm.
  destruct (digit_value (n mod 10) Hm) as [Hv Hd].
  pose proof (Nat.div_mod_eq n 10) as Hdm.
  destruct (n / 10)%nat as [|q] eqn:Hq.
  - cbn [int_of_digits all_chars]. rewrite Hv, Hd.
    split; [f_equal; lia|]. split; [now intros ->|discriminate].
  - destruct (IH (S q) (String (PyStr.digit (n mod 10)) acc)) as [H1 [H2 H3]]; [lia|].
    split; [|split; [|exact H3]].
    + rewrite H1. cbn [int_of_digits]. rewrite Hv. f_equal. lia.
    + intros Hacc. apply H2. cbn [all_chars]. now rewrite Hd, Hacc.
Qed.

(** X7: the number printed for an entry is its decimal representation:
    digits only, not empty, and reading it back gives the number. *)
Theorem str_of_nat_round_trip (n : nat) :
  int_of_digits 0 (PyStr.str_of_nat n) = n
  /\ all_chars is_digit (PyStr.str_of_nat n) = true
  /\ PyStr.str_of_nat n <> "".
Proof.
  unfold PyStr.str_of_nat.
  destruct (str_of_nat_fuel_value (S n) n "") as [H1 [H2 H3]]; [lia|].
  split; [exact H1|]. split; [now apply H2 | exact H3].
Qed.

Lemma fmt_lines_nth (docs : list Document) (i k : nat) :
  nth_error (fmt_lines i docs) k
  = option_map (fmt_line (i + k)) (nth_error docs k).
Proof.
  revert i k. induction docs as [|d docs IH]; intros i k.
  - now destruct k.
  - destruct k as [|k]; cbn [fmt_lines nth_error option_map].
    + now rewrite Nat.add_0_r.
    + rewrite IH. now rewrite Nat.add_succ_comm.
Qed.

Lemma startswith_app (p t : string) : PyStr.startswith (p ++ t) p = true.
Proof. apply startswith_iff. now exists t. Qed.

(** X8: the entries of the context are numbered from 1 in the order of the
    retrieved documents: the entry of the document at position [k]
    (from 0) starts with the number [k + 1]. *)
Theorem context_entries_numbered (docs : list Document) (k : nat) (d : Document) :
  nth_error docs k = Some d ->
  nth_error (fmt_lines 1 docs) k = Some (fmt_line (k + 1) d)
  /\ PyStr.startswith (fmt_line (k + 1) d)
       ("- [" ++ PyStr.str_of_nat (k + 1) ++ "] (") = true
  /\ int_of_digits 0 (PyStr.str_of_nat (k + 1)) = (k + 1)%nat.
Proof.
  intros H. split; [|split].
  - rewrite fmt_lines_nth, H. cbn [option_map]. now rewrite Nat.add_comm.
  - unfold fmt_line. rewrite <- !append_assoc.
    apply startswith_iff. eexists.
    rewrite !append_assoc. reflexivity.
  - apply str_of_nat_round_trip.
Qed.

Lemma context_entries_numbered_witness :
  nth_error [sample_document; mkDocument "Short note" []] 1
  = Some (mkDocument "Short note" [])
  /\ nth_error (fmt_lines 1 [sample_document; mkDocument "Short note" []]) 1
     = Some (fmt_line 2 (mkDocument "Short note" [])).
Proof.
  split; [reflexivity|].
  destruct (context_entries_numbered
              [sample_document; mkDocument "Short note" []] 1
              (mkDocument "Short note" []) eq_refl) as [H _].
  exact H.
Defined.

Lemma basename_from_slash_free (name cur : string) :
  slash_free name -> PyStr.basename_from cur name = cur ++ name.
Proof.
  unfold slash_free. revert cur. induction name as [|c name IH]; intros cur H.
  - cbn. now rewrite append_nil_r.
  - cbn in H. apply andb_true_iff in H as [Hc Hn]. apply negb_true_iff in Hc.
    cbn [PyStr.basename_from]. rewrite Hc, IH by assumption.
    now rewrite append_assoc.
Qed.

Lemma basename_from_dir (dir name cur : string) :
  slash_free name ->
  PyStr.basename_from cur (dir ++ "/" ++ name) = name.
Proof.
  intros Hn. revert cur. induction dir as [|c dir IH]; intros cur.
  - cbn [append PyStr.basename_from]. cbn [Ascii.eqb Bool.eqb andb].
    now rewrite basename_from_slash_free.
  - cbn [append PyStr.basename_from]. destruct (Ascii.eqb c "/"); apply IH.
Qed.

Lemma basename_from_slash_free_result (p cur : string) :
  slash_free cur -> slash_free (PyStr.basename_from cur p).
Proof.
  unfold slash_free. revert cur. induction p as [|c p IH]; intros cur H.
  - exact H.
  - cbn [PyStr.basename_from]. destruct (Ascii.eqb c "/") eqn:E.
    + now apply IH.
    + apply IH. rewrite all_chars_app, H. cbn. now rewrite E.
Qed.

(** X9: the label of an entry is the source path without its directories,
    so it holds no slash; a document without a [source] in its metadata
    is labelled [doc]. *)
Theorem entry_label (i : nat) (d : Document) :
  slash_free (PyStr.basename (dict_get (metadata d) "source" "doc"))
  /\ (forall dir name,
        slash_free name ->
        dict_get (metadata d) "source" "doc" = dir ++ "/" ++ name ->
        PyStr.startswith (fmt_line i d)
          ("- [" ++ PyStr.str_of_nat i ++ "] (" ++ name ++ ") ") = true)
  /\ ((forall v, ~ In ("source", v) (metadata d)) ->
      PyStr.startswith (fmt_line i d)
        ("- [" ++ PyStr.str_of_nat i ++ "] (doc) ") = true).
Proof.
  split; [|split].
  - now apply basename_from_slash_free_result.
  - intros dir name Hn Hsrc. unfold fmt_line. cbv zeta. rewrite Hsrc.
    unfold PyStr.basename. rewrite basename_from_dir by assumption.
    apply startswith_iff. eexists. rewrite !append_assoc. reflexivity.
  - intros Hno.
    assert (Hget : dict_get (metadata d) "source" "doc" = "doc").
    { induction (metadata d) as [|[k v] m IH]; [reflexivity|].
      cbn [dict_get]. destruct (String.eqb k "source") eqn:E.
      - apply String.eqb_eq in E. subst k. exfalso. apply (Hno v). now left.
      - apply IH. intros v' Hin. apply (Hno v'). now right. }
    unfold fmt_line. cbv zeta. rewrite Hget.
    change (PyStr.basename "doc") with "doc".
    apply startswith_iff. eexists. rewrite !append_assoc. reflexivity.
Qed.

(** ** More on runs of the graph *)

(** The summary of a run, for any integer bound. *)
Lemma run_from_spec_any (w : World) (r : Retriever) (obs : Observer) (N : Z) :
  quiet obs ->
  forall (limit : nat) (n : node) (s : DocState.t) (h : history) (k : Z),
    DocState.max_iters s = Some N -> DocState.i s = Some k ->
    (n = NRevise -> (k < N)%Z) ->
    exists hd,
      snd (run_from (build_graph w r) obs limit n s h) = (h ++ hd)%list
      /\ (calls_by NRevise hd <= Z.to_nat (N - k))%nat
      /\ (calls_by NCheck hd
          <= Z.to_nat (N - k) + b2n (negb (node_eqb n NRevise)))%nat
      /\ (calls_by NRetrieve hd <= b2n (node_eqb n NRetrieve))%nat
      /\ (calls_by NDraft hd
          <= b2n (node_eqb n NRetrieve || node_eqb n NDraft))%nat.
Proof.
  intros Hq. induction limit as [|limit IH]; intros n s h k Hmax Hi Hrev.
  - exists []. simpl. rewrite app_nil_r. unfold calls_by. simpl.
    repeat split; lia.
  - cbn [run_from]. unfold bind.
    destruct (step_spec w r obs n s h N k Hq Hmax Hi) as [evs [Hh [Hevs Hres]]].
    destruct (step (build_graph w r) obs n s h) as [[[t s']|e] h1];
      simpl in Hh, Hres; subst h1.
    + destruct Hres as [[ev ->] [Hmax' Hi' Ht]].
      destruct Hevs as [Hevs | [ev' [Hevs Hby]]]; [discriminate|].
      injection Hevs as <-.
      pose proof (event_by_unique n NRevise ev Hby) as E1.
      pose proof (event_by_unique n NCheck ev Hby) as E2.
      pose proof (event_by_unique n NRetrieve ev Hby) as E3.
      pose proof (event_by_unique n NDraft ev Hby) as E4.
      cbn [fst snd]. destruct t as [n'|].
      * destruct (IH n' s' (h ++ [ev])%list _ Hmax' Hi')
          as [hd [Hh' [S1 [S2 [S3 S4]]]]].
        { intros ->. destruct n; simpl in Ht; try discriminate.
          destruct Ht as [Ht | [_ Ht]]; [discriminate | simpl; lia]. }
        exists (ev :: hd). rewrite Hh', <- app_assoc. split; [reflexivity|].
        rewrite !calls_by_cons, E1, E2, E3, E4.
        destruct n; simpl in Ht; try (destruct Ht as [Ht | [Ht Hlt]]);
          try discriminate; injection Ht as ->; simpl in *;
          try specialize (Hrev eq_refl); repeat split; lia.
      * exists [ev]. split; [now destruct limit|].
        destruct n; simpl in Ht; try discriminate.
        unfold calls_by. simpl. rewrite E1, E2, E3, E4. simpl.
        repeat split; lia.
    + exists evs. split; [reflexivity|].
      destruct Hevs as [-> | [ev [-> Hby]]].
      * unfold calls_by. simpl. repeat split; lia.
      * pose proof (event_by_unique _ NRevise ev Hby) as E1.
        pose proof (event_by_unique _ NCheck ev Hby) as E2.
        pose proof (event_by_unique _ NRetrieve ev Hby) as E3.
        pose proof (event_by_unique _ NDraft ev Hby) as E4.
        unfold calls_by. simpl. rewrite E1, E2, E3, E4.
        destruct n; simpl; try specialize (Hrev eq_refl); repeat split; lia.
Qed.

(** X11: for every integer bound, negative ones too, a run makes at most
    one retrieval call, at most one drafting call, at most [max(N, 0)]
    revision calls and one check more; with a bound of zero or less no
    revision call is made. *)
Theorem calls_bounded_for_any_bound (w : World) (r : Retriever) (task : string)
  (N : Z) (limit : nat) :
  let h := snd (invoke (build_graph w r) limit (initial_state task N) []) in
  (retrieval_calls h <= 1)%nat
  /\ (drafting_calls h <= 1)%nat
  /\ (revision_calls h <= Z.to_nat N)%nat
  /\ (compliance_checks h <= Z.to_nat N + 1)%nat
  /\ ((N <= 0)%Z -> revision_calls h = 0%nat).
Proof.
  cbv zeta. unfold invoke. cbn [build_graph entry_point].
  destruct (run_from_spec_any w r no_observer N (silent_quiet _ no_observer_silent)
              limit NRetrieve (initial_state task N) [] 0%Z)
    as [hd [Hh [S1 [S2 [S3 S4]]]]]; try reflexivity; try discriminate.
  cbn [app] in Hh. rewrite Hh. rewrite Z.sub_0_r in *. cbn in S2, S3, S4.
  unfold retrieval_calls, drafting_calls, revision_calls, compliance_checks.
  repeat split; try lia.
Qed.

(** X12: a run that returns ends in one of two ways: its final draft passes
    the check and the issue list is empty, or the draft fails it and the
    whole budget of [N] revisions was used. *)
Theorem returned_run_passes_or_exhausts (w : World) (r : Retriever)
  (task : string) (N : Z) (limit : nat) (final : DocState.t) (h : history) :
  (0 <= N)%Z ->
  invoke (build_graph w r) limit (initial_state task N) [] = (Ok final, h) ->
  exists d,
    DocState.draft final = Some d
    /\ DocState.issues final = Some (issues (compliance_check d))
    /\ ((ok (compliance_check d) = true /\ DocState.issues final = Some [])
        \/ (ok (compliance_check d) = false
            /\ revision_calls h = Z.to_nat N
            /\ DocState.i final = Some N)).
Proof.
  intros HN Hrun.
  pose proof (invoke_summary w r task N limit HN) as Hsum.
  pose proof (invoke_final w r task N limit final) as Hfin.
  rewrite Hrun in Hsum, Hfin. cbn [fst snd] in *.
  destruct (Hfin eq_refl) as [[d [Hd [_ Hiss]]] Hend].
  destruct Hsum as [S1 _ _ _ [_ [_ [_ [Rmax Ri]]]]].
  rewrite Z.sub_0_r in S1.
  exists d. split; [exact Hd|]. split; [exact Hiss|].
  destruct (ok (compliance_check d)) eqn:Hok.
  - left. split; [reflexivity|]. apply ok_iff_no_issue in Hok. now rewrite Hiss, Hok.
  - right. split; [reflexivity|].
    apply decide_end_cases in Hend. rewrite Hiss, Rmax, Ri in Hend.
    cbn [DocState.get] in Hend. destruct Hend as [Hnil | Hge].
    + apply ok_iff_no_issue in Hnil. congruence.
    + unfold revision_calls. split; [lia|]. rewrite Ri. f_equal. lia.
Qed.

Lemma returned_run_passes_or_exhausts_witness :
  exists final h,
    invoke (build_graph sample_world sample_retriever) recursion_limit
      (initial_state "Write the synopsis." 2) [] = (Ok final, h)
    /\ exists d,
         DocState.draft final = Some d
         /\ DocState.issues final = Some (issues (compliance_check d))
         /\ ((ok (compliance_check d) = true /\ DocState.issues final = Some [])
             \/ (ok (compliance_check d) = false
                 /\ revision_calls h = Z.to_nat 2
                 /\ DocState.i final = Some 2%Z)).
Proof.
  destruct (invoke (build_graph sample_world sample_retriever) recursion_limit
              (initial_state "Write the synopsis." 2) [])
    as [[final|e] h] eqn:E; [|vm_compute in E; discriminate].
  exists final, h. split; [reflexivity|].
  apply (returned_run_passes_or_exhausts sample_world sample_retriever
           "Write the synopsis." 2 recursion_limit final h); [lia | exact E].
Defined.

Lemma step_keeps (w : World) (r : Retriever) (obs : Observer) (n : node)
  (s : DocState.t) (h : history) (t : target) (s' : DocState.t) (h' : history) :
  step (build_graph w r) obs n s h = (Ok (t, s'), h') ->
  DocState.task s' = DocState.task s
  /\ DocState.max_iters s' = DocState.max_iters s
  /\ DocState.final s' = DocState.final s
  /\ t <> Goto NRetrieve
  /\ match n with
     | NRetrieve =>
         exists task docs, DocState.task s = Some task
           /\ r h task = Returns docs
           /\ DocState.context s' = Some (fmt_context docs)
     | _ => DocState.context s' = DocState.context s
     end.
Proof.
  unfold step, bind.
  destruct (node_fn (build_graph w r) n s h) as [[d|e] h1] eqn:Hn; [|discriminate].
  destruct (obs n d h1) as [[u|e] h2]; [|discriminate].
  destruct (edge (build_graph w r) n (DocState.update s d) h2) as [[t0|e] h3] eqn:He;
    [|discriminate].
  intros H. injection H as <- <- <-.
  destruct s as [task context draft iss i max final].
  destruct n; cbn [build_graph node_fn edge] in Hn, He.
  - unfold make_retrieve_node, bind, getitem, call, ret, raise in Hn. cbn in Hn.
    destruct task as [task|]; [|discriminate].
    destruct (r h task) as [docs|] eqn:Hr; [|discriminate]. injection Hn as <- <-.
    injection He as <- _. cbn. repeat split; try discriminate.
    exists task, docs. now repeat split.
  - unfold draft_node, get_llm, bind, getitem, call, ret, raise in Hn. cbn in Hn.
    destruct (getenv w "ANTHROPIC_API_KEY") as [[|c key]|]; try discriminate.
    cbn in Hn. destruct task as [task|]; [|discriminate]. cbn in Hn.
    match type of Hn with context [generate w h ?a ?b] =>
      destruct (generate w h a b) as [dr|msg] end; [|discriminate].
    injection Hn as <- <-. injection He as <- _. cbn.
    repeat split; discriminate.
  - unfold check_node, bind, getitem, ret, raise in Hn. cbn in Hn.
    destruct draft as [draft|]; [|discriminate]. cbn in Hn.
    injection Hn as <- <-. apply path_map_target in He.
    cbn. repeat split. destruct He as [[-> _] | ->]; discriminate.
  - unfold revise_node, get_llm, bind, getitem, call, ret, raise in Hn. cbn in Hn.
    destruct (getenv w "ANTHROPIC_API_KEY") as [[|c key]|]; try discriminate.
    cbn in Hn. destruct draft as [draft|]; [|discriminate]. cbn in Hn.
    match type of Hn with context [generate w h ?a ?b] =>
      destruct (generate w h a b) as [rv|msg] end; [|discriminate].
    injection Hn as <- <-. injection He as <- _. cbn.
    repeat split; discriminate.
Qed.

Lemma run_from_keeps (w : World) (r : Retriever) (obs : Observer) :
  forall (limit : nat) (n : node) (s : DocState.t) (h : history)
         (final : DocState.t) (h' : history),
    n <> NRetrieve ->
    run_from (build_graph w r) obs limit n s h = (Ok final, h') ->
    DocState.task final = DocState.task s
    /\ DocState.max_iters final = DocState.max_iters s
    /\ DocState.final final = DocState.final s
    /\ DocState.context final = DocState.context s.
Proof.
  induction limit as [|limit IH]; intros n s h final h' Hn; [discriminate|].
  cbn [run_from]. unfold bind.
  destruct (step (build_graph w r) obs n s h) as [[[t s']|e] h1] eqn:Hs;
    [|discriminate].
  destruct (step_keeps w r obs n s h t s' h1 Hs) as [K1 [K2 [K3 [K4 K5]]]].
  assert (K5' : DocState.context s' = DocState.context s)
    by (destruct n; try exact K5; contradiction).
  cbn [fst snd]. destruct t as [n'|].
  - intros Hrun. apply IH in Hrun; [|congruence].
    destruct Hrun as [R1 [R2 [R3 R4]]]. repeat split; congruence.
  - destruct limit; [discriminate|].
    intros H. injection H as <- <-. now repeat split.
Qed.

(** X13: a run that returns has kept the task and the bound it started
    with, never sets the [final] key, and its context is the formatted
    result of the one retrieval made at the start. *)
Theorem run_keeps_task_bound_and_context (w : World) (r : Retriever)
  (task : string) (N : Z) (limit : nat) (final : DocState.t) (h : history) :
  invoke (build_graph w r) limit (initial_state task N) [] = (Ok final, h) ->
  DocState.task final = Some task
  /\ DocState.max_iters final = Some N
  /\ DocState.final final = None
  /\ exists docs, r [] task = Returns docs
       /\ DocState.context final = Some (fmt_context docs).
Proof.
  unfold invoke. cbn [build_graph entry_point].
  change (mkGraph _ _ _) with (build_graph w r).
  destruct limit as [|limit]; [discriminate|].
  cbn [run_from]. unfold bind.
  destruct (step (build_graph w r) no_observer NRetrieve (initial_state task N) [])
    as [[[t s']|e] h1] eqn:Hs; [|discriminate].
  destruct (step_keeps w r no_observer NRetrieve _ [] t s' h1 Hs)
    as [K1 [K2 [K3 [K4 [task' [docs [Ht [Hr Hc]]]]]]]].
  cbn in Ht. injection Ht as <-. cbn in K1, K2, K3.
  cbn [fst snd]. destruct t as [n'|].
  - intros Hrun. apply run_from_keeps in Hrun; [|congruence].
    destruct Hrun as [R1 [R2 [R3 R4]]].
    split; [congruence|]. split; [congruence|]. split; [congruence|].
    exists docs. split; [exact Hr | congruence].
  - destruct limit; [discriminate|]. intros H. injection H as <- <-.
    split; [exact K1|]. split; [exact K2|]. split; [exact K3|].
    now exists docs.
Qed.

Lemma run_keeps_task_bound_and_context_witness :
  exists final h,
    invoke (build_graph sample_world sample_retriever) recursion_limit
      (initial_state "Write the synopsis." 2) [] = (Ok final, h)
    /\ DocState.task final = Some "Write the synopsis."
    /\ DocState.max_iters final = Some 2%Z.
Proof.
  destruct (invoke (build_graph sample_world sample_retriever) recursion_limit
              (initial_state "Write the synopsis." 2) [])
    as [[final|e] h] eqn:E; [|vm_compute in E; discriminate].
  exists final, h. split; [reflexivity|].
  destruct (run_keeps_task_bound_and_context sample_world sample_retriever
              "Write the synopsis." 2 recursion_limit final h E) as [H1 [H2 _]].
  now split.
Defined.

(** X14: a state without a task makes the run fail with [KeyError] in the
    retrieve node, before any call to a collaborator. *)
Theorem state_without_task_fails_at_once (w : World) (r : Retriever)
  (state : DocState.t) (limit : nat) (h : history) :
  DocState.task state = None -> (1 <= limit)%nat ->
  invoke (build_graph w r) limit state h = (Raise (KeyError "task"), h).
Proof.
  intros Ht Hl. destruct limit as [|limit]; [lia|].
  unfold invoke. cbn [build_graph entry_point].
  change (mkGraph _ _ _) with (build_graph w r).
  rewrite run_from_step.
  rewrite (step_node_raises _ _ NRetrieve _ h h (KeyError "task")); [reflexivity|].
  cbn [build_graph node_fn]. unfold make_retrieve_node, bind, getitem.
  now rewrite Ht.
Qed.

Lemma state_without_task_fails_at_once_witness :
  DocState.task DocState.empty = None
  /\ invoke (build_graph sample_world sample_retriever) recursion_limit
       DocState.empty [] = (Raise (KeyError "task"), []).
Proof.
  split; [reflexivity|].
  apply (state_without_task_fails_at_once sample_world sample_retriever
           DocState.empty recursion_limit []);
    [reflexivity | unfold recursion_limit; lia].
Defined.

(** X15: when the retriever fails the run fails with its error, with the
    retrieval as its only call: no text is generated without context. *)
Theorem retrieval_failure_is_fatal (w : World) (r : Retriever) (task msg : string)
  (N : Z) (limit : nat) :
  r [] task = Fails msg -> (1 <= limit)%nat ->
  invoke (build_graph w r) limit (initial_state task N) []
  = (Raise (CollaboratorError msg), [Retrieval task]).
Proof.
  intros Hr Hl. destruct limit as [|limit]; [lia|].
  unfold invoke. cbn [build_graph entry_point].
  change (mkGraph _ _ _) with (build_graph w r).
  rewrite run_from_step.
  rewrite (step_node_raises _ _ NRetrieve _ [] [Retrieval task]
             (CollaboratorError msg)); [reflexivity|].
  cbn [build_graph node_fn]. unfold make_retrieve_node, bind, getitem, call.
  cbn [initial_state DocState.task]. unfold ret at 1. now rewrite Hr.
Qed.

Lemma retrieval_failure_is_fatal_witness :
  failing_retriever [] "Write the synopsis." = Fails "index unavailable"
  /\ invoke (build_graph sample_world failing_retriever) recursion_limit
       (initial_state "Write the synopsis." 2) []
     = (Raise (CollaboratorError "index unavailable"),
        [Retrieval "Write the synopsis."]).
Proof.
  split; [reflexivity|].
  apply (retrieval_failure_is_fatal sample_world failing_retriever
           "Write the synopsis." "index unavailable" 2 recursion_limit);
    [reflexivity | unfold recursion_limit; lia].
Defined.

Lemma step_collaborator_failure (w : World) (r : Retriever) (n : node)
  (s : DocState.t) (h h' : history) (msg : string) :
  step (build_graph w r) no_observer n s h = (Raise (CollaboratorError msg), h') ->
  exists ev, h' = (h ++ [ev])%list /\ failed_call w r msg h ev.
Proof.
  unfold step, bind, no_observer.
  destruct (node_fn (build_graph w r) n s h) as [[d|e] h1] eqn:Hn.
  - unfold ret at 1.
    destruct (edge (build_graph w r) n (DocState.update s d) h1) as [[t|e] h2] eqn:He;
      [discriminate|].
    intros H. injection H as -> <-. exfalso.
    destruct n; cbn [build_graph edge] in He; try discriminate.
    unfold path_map in He.
    destruct (String.eqb _ "revise"); [discriminate|].
    destruct (String.eqb _ "end"); discriminate.
  - intros H. injection H as -> <-.
    destruct s as [task context draft iss i max final].
    destruct n; cbn [build_graph node_fn] in Hn.
    + unfold make_retrieve_node, bind, getitem, call, ret, raise in Hn. cbn in Hn.
      destruct task as [task|]; [|discriminate].
      destruct (r h task) as [docs|m] eqn:Hr; [discriminate|].
      injection Hn as -> <-. now exists (Retrieval task).
    + unfold draft_node, get_llm, bind, getitem, call, ret, raise in Hn. cbn in Hn.
      destruct (getenv w "ANTHROPIC_API_KEY") as [[|c key]|]; try discriminate.
      cbn in Hn. destruct task as [task|]; [|discriminate]. cbn in Hn.
      match type of Hn with context [generate w h ?a ?b] =>
        destruct (generate w h a b) as [dr|m] eqn:Hg; [discriminate|];
        injection Hn as -> <-; now exists (Generation NDraft a b) end.
    + unfold check_node, bind, getitem, ret, raise in Hn. cbn in Hn.
      destruct draft; discriminate.
    + unfold revise_node, get_llm, bind, getitem, call, ret, raise in Hn. cbn in Hn.
      destruct (getenv w "ANTHROPIC_API_KEY") as [[|c key]|]; try discriminate.
      cbn in Hn. destruct draft as [draft|]; [|discriminate]. cbn in Hn.
      match type of Hn with context [generate w h ?a ?b] =>
        destruct (generate w h a b) as [rv|m] eqn:Hg; [discriminate|];
        injection Hn as -> <-; now exists (Generation NRevise a b) end.
Qed.

Lemma run_from_collaborator_failure (w : World) (r : Retriever) (msg : string) :
  forall (limit : nat) (n : node) (s : DocState.t) (h h' : history),
    run_from (build_graph w r) no_observer limit n s h
    = (Raise (CollaboratorError msg), h') ->
    exists h0 ev, h' = (h0 ++ [ev])%list /\ failed_call w r msg h0 ev.
Proof.
  induction limit as [|limit IH]; intros n s h h'; [discriminate|].
  rewrite run_from_step.
  destruct (step (build_graph w r) no_observer n s h) as [[[[n'|] s']|e] h1] eqn:Hs.
  - apply IH.
  - destruct limit; discriminate.
  - intros H. injection H as -> <-.
    destruct (step_collaborator_failure w r n s h h1 msg Hs) as [ev [-> Hf]].
    now exists h, ev.
Qed.

(** X16: when a run fails with the error of a collaborator, the call that
    failed is the last call of the run: nothing is retried and nothing
    else is called. *)
Theorem failed_call_is_not_retried (w : World) (r : Retriever) (state : DocState.t)
  (limit : nat) (msg : string) (h : history) :
  invoke (build_graph w r) limit state [] = (Raise (CollaboratorError msg), h) ->
  exists h0 ev, h = (h0 ++ [ev])%list /\ failed_call w r msg h0 ev.
Proof. unfold invoke. apply run_from_collaborator_failure. Qed.

Lemma failed_call_is_not_retried_witness :
  exists h,
    invoke (build_graph overloaded_world sample_retriever) recursion_limit
      (initial_state "Write the synopsis." 2) []
    = (Raise (CollaboratorError "overloaded"), h)
    /\ revision_calls h = 1%nat
    /\ exists h0 ev, h = (h0 ++ [ev])%list
         /\ failed_call overloaded_world sample_retriever "overloaded" h0 ev.
Proof.
  destruct (invoke (build_graph overloaded_world sample_retriever) recursion_limit
              (initial_state "Write the synopsis." 2) [])
    as [[final|e] h] eqn:E; [vm_compute in E; discriminate|].
  assert (He : e = CollaboratorError "overloaded").
  { assert (E' := f_equal fst E). vm_compute in E'. now injection E' as <-. }
  subst e. exists h. split; [reflexivity|]. split.
  - assert (E' := f_equal snd E). cbn [snd] in E'. rewrite <- E'.
    vm_compute. reflexivity.
  - apply (failed_call_is_not_retried overloaded_world sample_retriever
             (initial_state "Write the synopsis." 2) recursion_limit
             "overloaded" h E).
Defined.

(** X17: with the names the module binds, [stream_run] never returns
    normally, for any graph state and any collaborators, and makes at most
    one call before it stops. *)
Theorem stream_run_never_completes (w : World) (r : Retriever) (limit : nat)
  (state : DocState.t) (events_path : option string) (h : history) :
  fst (stream_run module_globals w (build_graph w r) limit state events_path h)
  <> Ok tt
  /\ (List.length
        (snd (stream_run module_globals w (build_graph w r) limit state
                events_path h))
      <= List.length h + 1)%nat.
Proof.
  unfold stream_run, bind.
  assert (Hopen : open_events w events_path h = (Ok tt, h)
                  \/ exists msg,
                       open_events w events_path h
                       = (Raise (CollaboratorError msg), h)).
  { unfold open_events.
    destruct (events_file events_path) as [path|]; [|now left].
    destruct (open_append w path) as [[]|msg]; [now left | right; now exists msg]. }
  destruct Hopen as [-> | [msg ->]];
    [|cbn [fst snd]; split; [discriminate | lia]].
  cbn [build_graph entry_point].
  change (mkGraph _ _ _) with (build_graph w r).
  destruct limit as [|limit];
    [cbn [run_from]; unfold raise; cbn [fst snd]; split; [discriminate | lia]|].
  rewrite run_from_step. unfold step, bind.
  destruct (node_fn (build_graph w r) NRetrieve state h) as [[d|e] h1] eqn:Hn.
  - rewrite on_event_unbound_dt. cbn [fst snd]. split; [discriminate|].
    cbn [build_graph node_fn] in Hn.
    unfold make_retrieve_node, bind, getitem, call, ret, raise in Hn.
    destruct (DocState.task state) as [task|]; [|discriminate].
    destruct (r h task); [|discriminate]. injection Hn as _ <-.
    rewrite length_app. cbn. lia.
  - cbn [fst snd]. split; [discriminate|].
    cbn [build_graph node_fn] in Hn.
    unfold make_retrieve_node, bind, getitem, call, ret, raise in Hn.
    destruct (DocState.task state) as [task|].
    + destruct (r h task); [discriminate|]. injection Hn as _ <-.
      rewrite length_app. cbn. lia.
    + injection Hn as _ <-. lia.
Qed.

(** ** The prompts *)

Lemma Contains_app_l (x a b : string) : Contains x a -> Contains x (a ++ b).
Proof.
  intros [pre [post ->]]. exists pre, (post ++ b). now rewrite !append_assoc.
Qed.

Lemma Contains_app_r (x a b : string) : Contains x b -> Contains x (a ++ b).
Proof.
  intros [pre [post ->]]. exists (a ++ pre), post. now rewrite !append_assoc.
Qed.

Lemma Contains_refl (x : string) : Contains x x.
Proof. exists "", "". cbn. now rewrite append_nil_r. Qed.


(** X18: with the credential set, the draft node makes exactly one
    generation call, whose human message holds the task and the context
    verbatim; it returns the generated text as the draft, or fails with
    the error of the call. *)
Theorem draft_call_embeds_task_and_context (w : World) (s : DocState.t)
  (h : history) (task : string) :
  key_present w -> DocState.task s = Some task ->
  let context := DocState.get (DocState.context s) "" in
  let human := DRAFT_PROMPT task context in
  Contains task human /\ Contains context human
  /\ snd (draft_node w s h) = (h ++ [Generation NDraft DRAFT_SYSTEM human])%list
  /\ match generate w h DRAFT_SYSTEM human with
     | Returns text =>
         fst (draft_node w s h)
         = Ok (DocState.mk None None (Some text) None None None None)
     | Fails msg => fst (draft_node w s h) = Raise (CollaboratorError msg)
     end.
Proof.
  intros [c [key Hk]] Ht. cbv zeta.
  split; [|split].
  - unfold DRAFT_PROMPT. apply Contains_app_r, Contains_app_l, Contains_refl.
  - unfold DRAFT_PROMPT.
    do 6 apply Contains_app_r. apply Contains_app_l, Contains_refl.
  - unfold draft_node, get_llm, bind, getitem, call, ret. rewrite Hk, Ht.
    cbv beta iota zeta.
    destruct (generate w h DRAFT_SYSTEM _); split; reflexivity.
Qed.

Lemma draft_call_embeds_task_and_context_witness :
  key_present sample_world
  /\ Contains "Write the synopsis."
       (DRAFT_PROMPT "Write the synopsis." (fmt_context [sample_document]))
  /\ Contains (fmt_context [sample_document])
       (DRAFT_PROMPT "Write the synopsis." (fmt_context [sample_document])).
Proof.
  assert (Hk : key_present sample_world) by (now exists "s"%char, "k-test").
  split; [exact Hk|].
  destruct (draft_call_embeds_task_and_context sample_world
              (DocState.mk (Some "Write the synopsis.")
                 (Some (fmt_context [sample_document])) None None (Some 0%Z)
                 (Some 2%Z) None)
              [] "Write the synopsis." Hk eq_refl) as [H1 [H2 _]].
  now split.
Defined.



(** ** Ingestion *)

Lemma endswith_iff (s suffix : string) :
  PyOs.endswith s suffix = true <-> exists pre, s = pre ++ suffix.
Proof.
  induction s as [|c s IH]; cbn [PyOs.endswith].
  - rewrite orb_false_r, String.eqb_eq. split.
    + intros <-. now exists "".
    + intros [pre H]. destruct pre; [exact H | discriminate].
  - rewrite orb_true_iff, String.eqb_eq, IH. split.
    + intros [<- | [pre ->]]; [now exists "" | now exists (String c pre)].
    + intros [pre H]. destruct pre as [|x pre]; [now left|].
      right. injection H as _ ->. now exists pre.
Qed.

Lemma load_files_post (fs : FileSystem) (pdf_dir root : string)
  (files all : list string) (docs : list Document) (loaded : list string) :
  In (root, all) (walk fs pdf_dir) -> incl files all ->
  load_inv fs pdf_dir docs loaded ->
  load_post fs pdf_dir (load_files fs root files docs loaded).
Proof.
  intros Hroot. revert docs loaded.
  induction files as [|fn files IH]; intros docs loaded Hincl Hinv.
  - exact Hinv.
  - cbn [load_files].
    assert (Hincl' : incl files all) by (intros x Hx; apply Hincl; now right).
    destruct (PyOs.endswith (PyStr.lower fn) ".pdf") eqn:Hpdf;
      [|now apply IH].
    assert (Hw : walked_pdf fs pdf_dir (PyOs.join root fn)).
    { exists root, all, fn. repeat split; try assumption.
      - apply Hincl. now left.
      - now apply endswith_iff. }
    destruct Hinv as [Hall [outs [Hout ->]]].
    cbv zeta.
    destruct (pdf_loader fs (PyOs.join root fn)) as [pages|msg] eqn:Hl.
    + apply IH; [assumption|]. split.
      * apply Forall_app. split; [assumption | now constructor].
      * exists (outs ++ [pages])%list. split.
        -- apply Forall2_app; [assumption | now constructor].
        -- rewrite concat_app. cbn. now rewrite app_nil_r.
    + cbn. split.
      * apply Forall_app. split; [assumption | now constructor].
      * now exists msg, loaded, (PyOs.join root fn).
Qed.

Lemma load_dirs_post (fs : FileSystem) (pdf_dir : string)
  (dirs : list (string * list string))
  (docs : list Document) (loaded : list string) :
  incl dirs (walk fs pdf_dir) ->
  load_inv fs pdf_dir docs loaded ->
  load_post fs pdf_dir (load_dirs fs dirs docs loaded).
Proof.
  revert docs loaded.
  induction dirs as [|[root files] dirs IH]; intros docs loaded Hincl Hinv.
  - exact Hinv.
  - cbn [load_dirs].
    pose proof (load_files_post fs pdf_dir root files files docs loaded
                  (Hincl _ (or_introl eq_refl)) (incl_refl _) Hinv) as Hp.
    destruct (load_files fs root files docs loaded) as [[docs'|e] loaded'].
    + apply IH; [|exact Hp]. intros x Hx. apply Hincl. now right.
    + exact Hp.
Qed.

Lemma load_inv_start (fs : FileSystem) (pdf_dir : string) :
  load_inv fs pdf_dir [] [].
Proof.
  split; [constructor|]. exists []. split; [constructor | reflexivity].
Qed.

(** X20: when [load_pdfs] returns, the directory exists, the result is not
    empty, every path given to the loader is a file found by the walk
    whose name ends in [.pdf] in any letter case, and the result is what
    the loader returned for these paths, in order. *)
Theorem load_pdfs_returns_walked_pdfs (fs : FileSystem) (pdf_dir : string)
  (docs : list Document) (loaded : list string) :
  load_pdfs fs pdf_dir = (Returned docs, loaded) ->
  isdir fs pdf_dir = true
  /\ docs <> []
  /\ Forall (walked_pdf fs pdf_dir) loaded
  /\ exists outs,
       Forall2 (fun p pages => pdf_loader fs p = Returns pages) loaded outs
       /\ docs = concat outs.
Proof.
  unfold load_pdfs. destruct (isdir fs pdf_dir); [|discriminate]. cbn [negb].
  pose proof (load_dirs_post fs pdf_dir (walk fs pdf_dir) [] []
                (incl_refl _) (load_inv_start fs pdf_dir)) as Hp.
  destruct (load_dirs fs (walk fs pdf_dir) [] []) as [[ds|e] ld].
  - destruct ds as [|d ds]; [discriminate|].
    intros H. injection H as <- <-.
    destruct Hp as [Hall Houts].
    split; [reflexivity|]. split; [discriminate|]. now split.
  - discriminate.
Qed.

Lemma load_pdfs_returns_walked_pdfs_witness :
  exists docs,
    load_pdfs sample_fs "./pdfs"
    = (Returned docs, ["./pdfs/ich_e6.PDF"; "./pdfs/fda/guidance.pdf"])
    /\ docs <> []
    /\ Forall (walked_pdf sample_fs "./pdfs")
         ["./pdfs/ich_e6.PDF"; "./pdfs/fda/guidance.pdf"].
Proof.
  eexists. split; [vm_compute; reflexivity|].
  destruct (load_pdfs_returns_walked_pdfs sample_fs "./pdfs" _
              ["./pdfs/ich_e6.PDF"; "./pdfs/fda/guidance.pdf"] eq_refl)
    as [_ [H1 [H2 _]]].
  now split.
Defined.

(** X21: [load_pdfs] fails in three ways only: the directory is missing
    ([FileNotFoundError], nothing loaded), every loaded file gave no page
    ([RuntimeError]), or the loader failed on a file, which is then the
    last file loaded. *)
Theorem load_pdfs_failures (fs : FileSystem) (pdf_dir : string)
  (e : host_exn) (loaded : list string) :
  load_pdfs fs pdf_dir = (Raised e, loaded) ->
  (isdir fs pdf_dir = false
   /\ e = FileNotFoundError ("PDF directory not found: " ++ pdf_dir)
   /\ loaded = [])
  \/ (isdir fs pdf_dir = true
      /\ e = Exn (RuntimeError "No PDFs found to ingest.")
      /\ Forall (fun p => pdf_loader fs p = Returns []) loaded)
  \/ (isdir fs pdf_dir = true
      /\ exists msg before p,
           e = Exn (CollaboratorError msg)
           /\ loaded = (before ++ [p])%list
           /\ pdf_loader fs p = Fails msg).
Proof.
  unfold load_pdfs. destruct (isdir fs pdf_dir); cbn [negb].
  - pose proof (load_dirs_post fs pdf_dir (walk fs pdf_dir) [] []
                  (incl_refl _) (load_inv_start fs pdf_dir)) as Hp.
    destruct (load_dirs fs (walk fs pdf_dir) [] []) as [[ds|e'] ld].
    + destruct ds as [|d ds]; [|discriminate].
      intros H. injection H as <- <-. right. left.
      split; [reflexivity|]. split; [reflexivity|].
      destruct Hp as [_ [outs [Hout Hnil]]].
      clear -Hout Hnil. induction Hout as [|p pages ld outs Hp Hout IH].
      * constructor.
      * cbn in Hnil. symmetry in Hnil. apply app_eq_nil in Hnil as [-> Hrest].
        constructor; [exact Hp | apply IH; now symmetry].
    + intros H. injection H as <- <-. right. right.
      split; [reflexivity|]. now destruct Hp as [_ Hp].
  - intros H. injection H as <- <-. now left.
Qed.

Lemma load_pdfs_failures_witness :
  load_pdfs sample_fs "./missing"
  = (Raised (FileNotFoundError "PDF directory not found: ./missing"), [])
  /\ isdir sample_fs "./missing" = false.
Proof.
  split; [reflexivity|].
  destruct (load_pdfs_failures sample_fs "./missing"
              (FileNotFoundError "PDF directory not found: ./missing") []
              eq_refl) as [[H _] | [[H _] | [H _]]];
    [exact H | discriminate H | discriminate H].
Defined.

Lemma load_files_no_pdf (fs : FileSystem) (root : string) (files : list string)
  (docs : list Document) (loaded : list string) :
  Forall (fun fn => ~ is_pdf_name fn) files ->
  load_files fs root files docs loaded = (Returned docs, loaded).
Proof.
  induction 1 as [|fn files Hfn _ IH]; [reflexivity|].
  cbn [load_files].
  destruct (PyOs.endswith (PyStr.lower fn) ".pdf") eqn:E; [|exact IH].
  exfalso. apply Hfn. now apply endswith_iff.
Qed.

(** X22: a directory in which no file name ends in [.pdf] makes
    [load_pdfs] fail with [RuntimeError] without calling the loader. *)
Theorem load_pdfs_without_pdf_files (fs : FileSystem) (pdf_dir : string) :
  isdir fs pdf_dir = true ->
  (forall root files fn,
      In (root, files) (walk fs pdf_dir) -> In fn files -> ~ is_pdf_name fn) ->
  load_pdfs fs pdf_dir
  = (Raised (Exn (RuntimeError "No PDFs found to ingest.")), []).
Proof.
  intros Hdir Hno. unfold load_pdfs. rewrite Hdir. cbn [negb].
  assert (H : load_dirs fs (walk fs pdf_dir) [] [] = (Returned [], [])).
  { assert (Hincl : incl (walk fs pdf_dir) (walk fs pdf_dir)) by apply incl_refl.
    revert Hincl. generalize (walk fs pdf_dir) at 1 3.
    induction l as [|[root files] l IH]; intros Hincl; [reflexivity|].
    cbn [load_dirs]. rewrite load_files_no_pdf.
    - apply IH. intros x Hx. apply Hincl. now right.
    - apply Forall_forall. intros fn Hfn.
      apply (Hno root files fn); [|exact Hfn]. apply Hincl. now left. }
  now rewrite H.
Qed.

Lemma load_pdfs_without_pdf_files_witness :
  isdir text_only_fs "./pdfs" = true
  /\ load_pdfs text_only_fs "./pdfs"
     = (Raised (Exn (RuntimeError "No PDFs found to ingest.")), []).
Proof.
  split; [reflexivity|].
  apply (load_pdfs_without_pdf_files text_only_fs "./pdfs"); [reflexivity|].
  intros root files fn Hin Hfn [stem Hstem].
  cbn in Hin. destruct Hin as [Hin | []]. injection Hin as <- <-.
  assert (E : PyOs.endswith (PyStr.lower fn) ".pdf" = true)
    by (apply endswith_iff; now exists stem).
  destruct Hfn as [<- | [<- | []]]; vm_compute in E; discriminate.
Defined.

(** ** The command line *)

(** X23: without [--ingest], [--run] and [--viz], [main] prints the help,
    exits with status 0 and does nothing else. *)
Theorem main_without_flags_prints_help (host : Host) (args : Args.t) :
  Args.ingest args = false -> Args.run args = false -> Args.viz args = false ->
  main host args = (0%Z, mkEffects [] [] [] [Help] []).
Proof.
  intros Hi Hr Hv. unfold main, main_body, main_ingest, main_viz, main_demo,
    main_help. rewrite Hi, Hr, Hv. reflexivity.
Qed.

Lemma main_without_flags_prints_help_witness :
  main sample_host no_flags = (0%Z, mkEffects [] [] [] [Help] []).
Proof.
  apply (main_without_flags_prints_help sample_host no_flags); reflexivity.
Defined.

(** X24: when [build_vectorstore] fails, in loading the documents or in
    indexing them, [main] prints the error and exits with status 1 at
    once: no diagram is written and no run is started, also when [--viz]
    or [--run] was given.  When the loading failed nothing was indexed;
    otherwise the one indexing that failed is all that was tried. *)
Theorem failed_ingest_stops_main (host : Host) (args : Args.t)
  (e : host_exn) (eff : Effects) :
  Args.ingest args = true ->
  build_vectorstore host (Args.pdf_dir args) (Args.persist args)
    (mkEffects [] [] [] [IngestLoading (Args.pdf_dir args)] [])
  = (Raised e, eff) ->
  main host args
  = (1%Z,
     mkEffects (loaded eff) (indexed eff) []
       [IngestLoading (Args.pdf_dir args); ErrorLine ("Error: " ++ host_exn_str e)]
       [])
  /\ ((exists paths,
         load_pdfs (files host) (Args.pdf_dir args) = (Raised e, paths)
         /\ loaded eff = paths /\ indexed eff = [])
      \/ (exists docs paths msg,
            load_pdfs (files host) (Args.pdf_dir args) = (Returned docs, paths)
            /\ index_documents host docs (Args.persist args) = Fails msg
            /\ e = Exn (CollaboratorError msg)
            /\ loaded eff = paths
            /\ indexed eff = [(Args.persist args, docs)])).
Proof.
  intros Hi Hb.
  assert (Hshape : written eff = []
                   /\ printed eff = [IngestLoading (Args.pdf_dir args)]
                   /\ calls eff = []
                   /\ ((exists paths,
                          load_pdfs (files host) (Args.pdf_dir args)
                          = (Raised e, paths)
                          /\ loaded eff = paths /\ indexed eff = [])
                       \/ (exists docs paths msg,
                             load_pdfs (files host) (Args.pdf_dir args)
                             = (Returned docs, paths)
                             /\ index_documents host docs (Args.persist args)
                                = Fails msg
                             /\ e = Exn (CollaboratorError msg)
                             /\ loaded eff = paths
                             /\ indexed eff = [(Args.persist args, docs)]))).
  { unfold build_vectorstore in Hb.
    destruct (load_pdfs (files host) (Args.pdf_dir args)) as [[docs|e'] paths].
    - cbv zeta in Hb.
      destruct (index_documents host docs (Args.persist args)) as [u|msg] eqn:Hx;
        [discriminate|].
      injection Hb as <- <-. cbn. repeat split. right.
      exists docs, paths, msg. now repeat split.
    - injection Hb as <- <-. cbn. repeat split. left. now exists paths. }
  destruct Hshape as [Hw [Hp [Hc Hcases]]]. split; [|exact Hcases].
  unfold main, main_body, main_ingest. rewrite Hi.
  unfold hbind at 1 2. unfold print at 1.
  cbn [no_effects loaded indexed written printed calls app].
  unfold hbind at 1. rewrite Hb. rewrite Hw, Hp, Hc. reflexivity.
Qed.

Lemma failed_ingest_stops_main_witness :
  exists docs,
    load_pdfs sample_fs "./pdfs"
    = (Returned docs, ["./pdfs/ich_e6.PDF"; "./pdfs/fda/guidance.pdf"])
    /\ main full_disk_host
         (Args.mk true "./pdfs" "./chroma" true false None true None)
       = (1%Z,
          mkEffects ["./pdfs/ich_e6.PDF"; "./pdfs/fda/guidance.pdf"]
            [("./chroma", docs)] []
            [IngestLoading "./pdfs"; ErrorLine "Error: disk full"] []).
Proof.
  eexists. split; [vm_compute; reflexivity|].
  destruct (failed_ingest_stops_main full_disk_host
              (Args.mk true "./pdfs" "./chroma" true false None true None)
              (Exn (CollaboratorError "disk full"))
              (snd (build_vectorstore full_disk_host "./pdfs" "./chroma"
                      (mkEffects [] [] [] [IngestLoading "./pdfs"] [])))
              eq_refl) as [H _]; [vm_compute; reflexivity|].
  rewrite H. vm_compute. reflexivity.
Defined.

(** X25: with [--run] alone, [main] does what [main_run] does: the same
    exit status and the same calls, and it loads, indexes and writes
    nothing. *)
Theorem main_run_only (host : Host) (args : Args.t) :
  Args.ingest args = false -> Args.viz args = false -> Args.run args = true ->
  fst (main host args)
  = fst (fst (main_run (world host) (Args.persist args) (Args.task args) (Args.stream args)
                (Args.events args) []))
  /\ calls (snd (main host args))
     = snd (main_run (world host) (Args.persist args) (Args.task args) (Args.stream args)
              (Args.events args) [])
  /\ loaded (snd (main host args)) = []
  /\ indexed (snd (main host args)) = []
  /\ written (snd (main host args)) = [].
Proof.
  intros Hi Hv Hr. unfold main, main_body, main_ingest, main_viz, main_demo,
    main_help, main_run. rewrite Hi, Hv, Hr.
  unfold hbind, hret, liftM, print. cbn [no_effects calls negb andb].
  destruct (run_demo module_globals (world host) (Args.persist args) (Args.task args)
              (Args.stream args) (Args.events args) []) as [[text|e] h];
    cbn; repeat split.
Qed.

Lemma main_run_only_witness :
  fst (main sample_host
         (Args.mk false "./pdfs" "./chroma" true true None false None))
  = 1%Z.
Proof.
  destruct (main_run_only sample_host
              (Args.mk false "./pdfs" "./chroma" true true None false None)
              eq_refl eq_refl eq_refl) as [H _].
  rewrite H. vm_compute. reflexivity.
Defined.

(** X26: with [--viz] alone and a loadable store, [main] makes no
    collaborator call, and a failure of the drawing never fails the
    command: when the drawing succeeds [main] exits with status 0; when it
    does not, the fixed diagram is written to [graph.mmd], and [main]
    exits with status 0 if that file could be written and with status 1
    and the error of the write if it could not. *)
Theorem viz_does_not_depend_on_png (host : Host) (args : Args.t) (r : Retriever) :
  Args.ingest args = false -> Args.run args = false -> Args.viz args = true ->
  vectorstore (world host) (Args.persist args) = Returns r ->
  calls (snd (main host args)) = []
  /\ (draw_png host = Returns true ->
      main host args = (0%Z, mkEffects [] [] [] [VizPng] []))
  /\ (draw_png host <> Returns true ->
      forall u, write_file host "graph.mmd" MERMAID = Returns u ->
      main host args
      = (0%Z,
         mkEffects [] [] [("graph.mmd", MERMAID)] [VizMermaid "graph.mmd"] []))
  /\ (draw_png host <> Returns true ->
      forall msg, write_file host "graph.mmd" MERMAID = Fails msg ->
      main host args
      = (1%Z,
         mkEffects [] [] [("graph.mmd", MERMAID)]
           [ErrorLine ("Error: " ++ msg)] [])).
Proof.
  intros Hi Hr Hv Hvs. unfold main, main_body, main_ingest, main_viz,
    main_demo, main_help. rewrite Hi, Hr, Hv.
  unfold hbind, hret, liftM, print, load_vectorstore, export_graph_mermaid,
    try_langgraph_png. rewrite Hvs. cbn [no_effects calls negb andb].
  destruct (write_file host "graph.mmd" MERMAID) as [u|msg] eqn:Hw;
    destruct (draw_png host) as [[|]|m] eqn:Hd; cbn;
    repeat split; intros; try congruence; try contradiction.
Qed.

Lemma viz_does_not_depend_on_png_witness :
  vectorstore (world sample_host) "./chroma" = Returns sample_retriever
  /\ draw_png sample_host <> Returns true
  /\ main sample_host
       (Args.mk false "./pdfs" "./chroma" false false None true None)
     = (0%Z,
        mkEffects [] [] [("graph.mmd", MERMAID)] [VizMermaid "graph.mmd"] []).
Proof.
  split; [reflexivity|]. split; [discriminate|].
  destruct (viz_does_not_depend_on_png sample_host
              (Args.mk false "./pdfs" "./chroma" false false None true None)
              sample_retriever eq_refl eq_refl eq_refl eq_refl)
    as [_ [_ [H _]]].
  apply (H ltac:(discriminate) tt). reflexivity.
Defined.

Lemma build_vectorstore_indexed (host : Host) (dir pers : string) (eff : Effects) :
  Forall (fun x => snd x <> []) (indexed eff) ->
  Forall (fun x => snd x <> [])
    (indexed (snd (build_vectorstore host dir pers eff))).
Proof.
  intros Hall. unfold build_vectorstore.
  destruct (load_pdfs (files host) dir) as [[docs|e] paths] eqn:Hl.
  - apply load_pdfs_returns_walked_pdfs in Hl as [_ [Hne _]].
    assert (Hall' : Forall (fun x : string * list Document => snd x <> [])
                      (indexed eff ++ [(pers, docs)])).
    { apply Forall_app. split; [exact Hall | now constructor]. }
    destruct (index_documents host docs pers); exact Hall'.
  - exact Hall.
Qed.

Lemma main_ingest_indexed (host : Host) (args : Args.t) (eff : Effects) :
  indexed_ok eff -> indexed_ok (snd (main_ingest host args eff)).
Proof.
  intros Heff. unfold main_ingest. destruct (Args.ingest args); [|exact Heff].
  unfold hbind at 1. cbn [print]. unfold hbind.
  match goal with |- context [build_vectorstore host ?d ?p ?e] =>
    pose proof (build_vectorstore_indexed host d p e Heff) as Hb;
    destruct (build_vectorstore host d p e) as [[u|e'] eff'] end;
    exact Hb.
Qed.

Lemma main_viz_indexed (host : Host) (args : Args.t) (eff : Effects) :
  indexed (snd (main_viz host args eff)) = indexed eff.
Proof.
  unfold main_viz. destruct (Args.viz args); [|reflexivity].
  unfold hbind, liftM, print, export_graph_mermaid.
  destruct (load_vectorstore _ _ _) as [[rt|e] h]; [|reflexivity].
  destruct (try_langgraph_png host); [reflexivity|].
  destruct (write_file host _ _); reflexivity.
Qed.

Lemma main_demo_indexed (host : Host) (args : Args.t) (eff : Effects) :
  indexed (snd (main_demo host args eff)) = indexed eff.
Proof.
  unfold main_demo. destruct (Args.run args); [|reflexivity].
  unfold hbind, liftM, print.
  destruct (run_demo _ _ _ _ _ _ _) as [[text|e] h]; reflexivity.
Qed.

(** X27: whatever the arguments and the host, [main] never indexes an
    empty list of documents. *)
Theorem main_never_indexes_nothing (host : Host) (args : Args.t) :
  Forall (fun x => snd x <> []) (indexed (snd (main host args))).
Proof.
  unfold main, main_body, hbind.
  pose proof (main_ingest_indexed host args no_effects (Forall_nil _)) as H1.
  destruct (main_ingest host args no_effects) as [[u1|e] eff1];
    cbn [snd] in H1; [|exact H1].
  pose proof (main_viz_indexed host args eff1) as H2.
  destruct (main_viz host args eff1) as [[u2|e] eff2];
    cbn [snd] in H2; [|cbn; unfold indexed_ok in H1; now rewrite H2].
  pose proof (main_demo_indexed host args eff2) as H3.
  destruct (main_demo host args eff2) as [[u3|e] eff3];
    cbn [snd] in H3; [|cbn; unfold indexed_ok in H1; now rewrite H3, H2].
  unfold main_help, print, hret.
  destruct (negb (Args.ingest args) && negb (Args.run args) && negb (Args.viz args));
    cbn; unfold indexed_ok in H1; now rewrite H3, H2.
Qed.

